(** * MARCI / ISIS pipeline driver: a shallow embedding and its properties

    The development embeds the three iterations of the driver
    ([marci_isis_processing.py], [marci_isis_processing_v2.py],
    [marci_isis_processing_v3.py]) as functions of a small state-and-exception
    monad over a model of the file system and of the external ISIS tools, and
    proves the properties of the staged pipeline.

    Conventions of the model.
    - A path is the string [str(path)]; the directory being processed holds
      regular files only, and the set of existing files is a [gset string].
    - An external tool is an arbitrary function of the command line and of the
      whole world (the files plus an abstract external state: file contents,
      kernels, network); it returns the exit status and the new world.  A tool
      that is installed can always be started.
    - The trace of a computation is the list of calls it makes to its
      environment, in order: log records, [subprocess.run], [Path.unlink],
      [Path.write_text], [print].
    - [Path.unlink] of a path that does not exist raises [FileNotFoundError],
      [subprocess.run(check=True)] raises [CalledProcessError] on a non-zero
      exit status, [sys.exit] raises [SystemExit].
    - The working directory can be written to: the log file can be opened
      and a map template can be written. *)

From stdpp Require Import gmap strings list sorting pretty.
From Stdlib Require Import ZArith Ascii String Lia.

Open Scope string_scope.
Open Scope Z_scope.

(** ** Python strings *)

Module PyStr.

  (** [sep.join(l)] *)
Definition join (sep : string) (l : list string) : string := String.concat sep l.

  (** [s[n:]] *)
Fixpoint drop (n : nat) (s : string) : string :=
    match n, s with
    | O, _ => s
    | S _, EmptyString => EmptyString
    | S k, String _ s' => drop k s'
    end.

  (** [c in s] *)
Fixpoint mem (c : ascii) (s : string) : bool :=
    match s with
    | EmptyString => false
    | String d s' => Ascii.eqb c d || mem c s'
    end.

  (** [old in s] (substring test) *)
Fixpoint contains (old s : string) : bool :=
    String.prefix old s ||
    match s with
    | EmptyString => false
    | String _ s' => contains old s'
    end.

  (** [s.split(sep)] for a one-character separator: [cur] is the piece being
      read, reversed. *)
Fixpoint split_go (sep : ascii) (cur : list ascii) (s : string) : list string :=
    match s with
    | EmptyString => [string_of_list_ascii (rev cur)]
    | String c s' =>
        if Ascii.eqb c sep
        then string_of_list_ascii (rev cur) :: split_go sep [] s'
        else split_go sep (c :: cur) s'
    end.

Definition split (sep : ascii) (s : string) : list string := split_go sep [] s.

  (** [s.replace(old, new)] for a non-empty [old]: scan from the left; [skip]
      counts the characters of a match that are still to be passed over. *)
Fixpoint replace_go (old new : string) (skip : nat) (s : string) : string :=
    match s with
    | EmptyString => EmptyString
    | String c s' =>
        match skip with
        | S k => replace_go old new k s'
        | O =>
            if String.prefix old s
            then new ++ replace_go old new (Nat.pred (String.length old)) s'
            else String c (replace_go old new O s')
        end
    end.

Definition replace (old new s : string) : string := replace_go old new O s.

  (** [s.rfind(c)]: the index of the last [c] of [s], counting from [i]. *)
Fixpoint rfind_go (c : ascii) (i : nat) (s : string) : option nat :=
    match s with
    | EmptyString => None
    | String d s' =>
        match rfind_go c (S i) s' with
        | Some j => Some j
        | None => if Ascii.eqb c d then Some i else None
        end
    end.

Definition rfind (c : ascii) (s : string) : option nat := rfind_go c O s.

Definition is_digit (c : ascii) : bool :=
  let n := nat_of_ascii c in (48 <=? n)%nat && (n <=? 57)%nat.

Definition all_digits (s : string) : bool :=
  forallb is_digit (list_ascii_of_string s).

(** The ASCII characters [int] and [str.strip] take for white space. *)
Definition is_space (c : ascii) : bool :=
  let n := nat_of_ascii c in
  ((9 <=? n)%nat && (n <=? 13)%nat) || ((28 <=? n)%nat && (n <=? 32)%nat).

Fixpoint lstrip_go (l : list ascii) : list ascii :=
  match l with
  | c :: l' => if is_space c then lstrip_go l' else l
  | [] => []
  end.

Definition strip (s : string) : string :=
  string_of_list_ascii (rev (lstrip_go (rev (lstrip_go (list_ascii_of_string s))))).

(** Decimal digits with single underscores between them. *)
Fixpoint digits_go (acc : Z) (after_digit : bool) (s : string) : option Z :=
  match s with
  | EmptyString => if after_digit then Some acc else None
  | String c s' =>
      if is_digit c then digits_go (10 * acc + (Z.of_nat (nat_of_ascii c) - 48)) true s'
      else if Ascii.eqb c "_"%char && after_digit then digits_go acc false s'
      else None
  end.

(** [int(s)] on ASCII text; [None] is [ValueError]. *)
Definition py_int (s : string) : option Z :=
  match strip s with
  | String "-" r => Z.opp <$> digits_go 0 false r
  | String "+" r => digits_go 0 false r
  | r => digits_go 0 false r
  end.

End PyStr.

(** ** [pathlib] on path strings *)

Module PyPath.

  (** Text after the last [/]: [PurePath.name]. *)
Definition name (p : string) : string :=
    match PyStr.rfind "/"%char p with
    | Some i => PyStr.drop (S i) p
    | None => p
    end.

  (** [PurePath.stem]: the name without its last suffix; a leading or a
      trailing dot starts no suffix. *)
Definition stem (p : string) : string :=
    let n := name p in
    match PyStr.rfind "."%char n with
    | Some i =>
        if (0 <? i)%nat && (i <? Nat.pred (String.length n))%nat
        then String.substring 0 i n
        else n
    | None => n
    end.

  (** [str(d)] followed by the separator; the root is its own prefix. *)
Definition dir_prefix (d : string) : string :=
    if String.eqb d "/" then "/" else d ++ "/".

  (** [d / n] for a resolved directory [d] and a relative [n] without
      separator; [d / ""] is [d]. *)
Definition joinpath (d n : string) : string :=
    if String.eqb n "" then d else dir_prefix d ++ n.

  (** The name of [p] when [p] is an entry of directory [d]. *)
Definition child_name (d p : string) : option string :=
    if String.prefix (dir_prefix d) p
    then
      let n := PyStr.drop (String.length (dir_prefix d)) p in
      if String.eqb n "" || PyStr.mem "/"%char n then None else Some n
    else None.

  (** [fnmatch] for the patterns of this program: literal characters and
      [*], which stands for any run of characters. *)
Fixpoint fnmatch_go (pat : list ascii) : list ascii -> bool :=
    match pat with
    | [] => fun s => match s with [] => true | _ => false end
    | c :: pat' =>
        if Ascii.eqb c "*"%char
        then
          fix star (s : list ascii) : bool :=
            fnmatch_go pat' s ||
            match s with
            | [] => false
            | _ :: s' => star s'
            end
        else
          fun s =>
            match s with
            | [] => false
            | d :: s' => Ascii.eqb c d && fnmatch_go pat' s'
            end
    end.

Definition fnmatch (pat n : string) : bool :=
    fnmatch_go (list_ascii_of_string pat) (list_ascii_of_string n).

  (** The order of [sorted] on the paths of one directory: code-point order
      of the names. *)
Definition str_le (a b : string) : Prop := String.leb a b = true.

#[global] Instance str_le_dec a b : Decision (str_le a b).
Proof. unfold str_le. apply _. Defined.

  (** [sorted(d.glob(pat))] over the set [fs] of existing files. *)
Definition sorted_glob (d pat : string) (fs : gset string) : list string :=
    joinpath d <$>
      merge_sort str_le (filter (fun n => fnmatch pat n = true) (omap (child_name d) (elements fs))).

End PyPath.

(** ** The environment: world, trace, exceptions *)

Inductive Level := INFO | WARNING | ERROR.

(** The calls a computation makes to its environment. [Unlink p] records the
    call [p.unlink()], [Run c] the call [subprocess.run(c, check=True)]. *)
Inductive Event :=
| Log (lvl : Level) (msg : string)
| Run (command : list string)
| Unlink (p : string)
| WriteText (p text : string)
| Stdout (msg : string).

Inductive Exn :=
| CalledProcessError (cmd : list string) (returncode : Z)
| FileNotFoundError (p : string)
| AttributeError (msg : string)
| TypeError (msg : string)
| IndexError (msg : string)
| SystemExit (code : Z).

Inductive Result (A : Type) :=
| Ok (a : A)
| Raised (e : Exn).

Arguments Ok {A} a.
Arguments Raised {A} e.

(** The existing files and the rest of the world, which only the tools see. *)
Record World (X : Type) := mkWorld { files : gset string; ext : X }.

Arguments mkWorld {X} files ext.
Arguments files {X} w.
Arguments ext {X} w.

(** What the driver takes from its platform: the external tools,
    [Path(s).resolve()] as [resolve s], [Path.cwd()], [str(Path(s))] as
    [path_str s], and the text of a [CalledProcessError]. *)
Record Platform := mkPlatform {
  Ext : Type;
  tool : list string -> World Ext -> Z * World Ext;
  resolve : string -> string;
  cwd : string;
  path_str : string -> string;
  CalledProcessError_str : list string -> Z -> string
}.

Record Out (X A : Type) := mkOut { res : Result A; wld : World X; evs : list Event }.

Arguments mkOut {X A} res wld evs.
Arguments res {X A} o.
Arguments wld {X A} o.
Arguments evs {X A} o.

Definition M (X A : Type) : Type := World X -> Out X A.

Definition ret {X A} (a : A) : M X A := fun w => mkOut (Ok a) w [].

Definition bind {X A B} (m : M X A) (f : A -> M X B) : M X B :=
  fun w =>
    match m w with
    | mkOut (Ok a) w1 e1 =>
        match f a w1 with
        | mkOut r w2 e2 => mkOut r w2 (e1 ++ e2)
        end
    | mkOut (Raised e) w1 e1 => mkOut (Raised e) w1 e1
    end.

Definition raise {X A} (e : Exn) : M X A := fun w => mkOut (Raised e) w [].

(** [try: m except ...: h]; the handler answers [None] for an exception the
    [except] clause does not name, which then propagates. *)
Definition try_except {X A} (m : M X A) (h : Exn -> option (M X A)) : M X A :=
  fun w =>
    match m w with
    | mkOut (Ok a) w1 e1 => mkOut (Ok a) w1 e1
    | mkOut (Raised e) w1 e1 =>
        match h e with
        | Some k =>
            match k w1 with
            | mkOut r w2 e2 => mkOut r w2 (e1 ++ e2)
            end
        | None => mkOut (Raised e) w1 e1
        end
    end.

Definition emit {X} (e : Event) : M X unit := fun w => mkOut (Ok tt) w [e].

Declare Scope py_scope.
Delimit Scope py_scope with py.
Notation "x <- m ;; k" := (bind m (fun x => k))
  (at level 100, m at next level, right associativity) : py_scope.
Notation "m ;; k" := (bind m (fun _ => k))
  (at level 100, right associativity) : py_scope.
Open Scope py_scope.

(** [for x in l: body(x)] over a list that is already built. *)
Fixpoint for_each {X} (l : list string) (body : string -> M X unit) : M X unit :=
  match l with
  | [] => ret tt
  | x :: l' => body x ;; for_each l' body
  end.

Definition nl : string := String "010"%char "".

(** Python truth of an [int]. *)
Definition truthy (z : Z) : bool := negb (z =? 0).

Section Primitives.

Variable P : Platform.
Local Abbreviation W := (World (Ext P)).
Local Abbreviation Py := (M (Ext P)).

Definition logging_info (msg : string) : Py unit := emit (Log INFO msg).
Definition logging_warning (msg : string) : Py unit := emit (Log WARNING msg).
Definition logging_error (msg : string) : Py unit := emit (Log ERROR msg).
Definition print (msg : string) : Py unit := emit (Stdout msg).

  (** [subprocess.run(command, check=True)] *)
Definition subprocess_run_check (command : list string) : Py unit :=
    fun w =>
      let '(rc, w') := tool P command w in
      mkOut (if rc =? 0 then Ok tt else Raised (CalledProcessError command rc)) w' [Run command].

Definition path_exists (p : string) : Py bool :=
    fun w => mkOut (Ok (bool_decide (p ∈ files w))) w [].

Definition path_is_file (p : string) : Py bool := path_exists p.

Definition path_unlink (p : string) : Py unit :=
    fun w =>
      if bool_decide (p ∈ files w)
      then mkOut (Ok tt) (mkWorld (files w ∖ {[p]}) (ext w)) [Unlink p]
      else mkOut (Raised (FileNotFoundError p)) w [Unlink p].

Definition path_write_text (p text : string) : Py unit :=
    fun w => mkOut (Ok tt) (mkWorld ({[p]} ∪ files w) (ext w)) [WriteText p text].

Definition sorted_glob (d pat : string) : Py (list string) :=
    fun w => mkOut (Ok (PyPath.sorted_glob d pat (files w))) w [].

Definition sys_exit {A} (code : Z) : Py A := raise (SystemExit code).

  (** [str(e)] for the exceptions the driver formats. *)
Definition exn_str (e : Exn) : string :=
    match e with
    | CalledProcessError c rc => CalledProcessError_str P c rc
    | FileNotFoundError p => p
    | AttributeError msg => msg
    | TypeError msg => msg
    | IndexError msg => msg
    | SystemExit _ => ""
    end.

End Primitives.

Arguments sys_exit P {A} code.

(** ** The latest iteration: [marci_isis_processing_v3.py] *)

Module V3.

Section Code.

Variable P : Platform.
Local Abbreviation Py := (M (Ext P)).

Definition LOG_FILE : string := "marci_isis_processing.log".

Definition simplecyl_text : string :=
  String.concat "" [
    "Group=Mapping" ++ nl;
    "  TargetName=Mars" ++ nl;
    "  LongitudeDomain=360" ++ nl;
    "  ProjectionName=SimpleCylindrical" ++ nl;
    "  CenterLongitude=0.0" ++ nl;
    "  CenterLatitude=0.0" ++ nl;
    "End_Group" ++ nl;
    "End" ++ nl ].

Definition polar_text : string :=
  String.concat "" [
    "Group=Mapping" ++ nl;
    "  TargetName=Mars" ++ nl;
    "  LongitudeDomain=360" ++ nl;
    "  ProjectionName=PolarStereographic" ++ nl;
    "  CenterLongitude=0.0" ++ nl;
    "  CenterLatitude=90.0" ++ nl;
    "  TrueScaleLatitude=90.0" ++ nl;
    "  MinimumLatitude=60.0" ++ nl;
    "  MaximumLatitude=90.0" ++ nl;
    "End_Group" ++ nl;
    "End" ++ nl ].

Definition eqc_text : string :=
  String.concat "" [
    "Group=Mapping" ++ nl;
    "  TargetName=Mars" ++ nl;
    "  LongitudeDomain=360" ++ nl;
    "  ProjectionName=Equirectangular" ++ nl;
    "  CenterLongitude=0.0" ++ nl;
    "  CenterLatitude=0.0" ++ nl;
    "End_Group" ++ nl;
    "End" ++ nl ].

Definition PROJECTION_PRESETS : gmap string string :=
  <["simplecyl" := simplecyl_text]> (<["polar" := polar_text]> (<["eqc" := eqc_text]> ∅)).

(** [setup_logging]: the file handler opens the log file in the working
    directory, which creates it. *)
Definition setup_logging : Py unit :=
  fun w => mkOut (Ok tt) (mkWorld ({[resolve P LOG_FILE]} ∪ files w) (ext w)) [].

Definition run_command (command : list string) (fail_message : string) : Py bool :=
  logging_info P ("Running: " ++ PyStr.join " " command) ;;
  try_except
    (subprocess_run_check P command ;; ret true)
    (fun e =>
       match e with
       | CalledProcessError _ _ =>
           Some (logging_error P (fail_message ++ nl ++ "Command failed: " ++ exn_str P e) ;;
                 ret false)
       | _ => None
       end).

Definition try_spiceinit_with_web (cub_file : string) : Py unit :=
  logging_warning P ("Falling back to SPICE Web Services for " ++ cub_file) ;;
  _ <- run_command ["spiceinit"; "from=" ++ cub_file; "web=true"]
         ("SPICE Web Services also failed for " ++ cub_file) ;;
  ret tt.

Definition create_projection_map (projection output_path : string) : Py unit :=
  match PROJECTION_PRESETS !! projection with
  | None =>
      logging_error P ("Unknown projection preset: " ++ projection) ;;
      sys_exit P 1
  | Some text =>
      path_write_text P output_path text ;;
      logging_info P ("Projection map template written: " ++ output_path)
  end.

(** The body of each of the six loops of [process_images], for one file. *)

Definition marci2isis_step (input_dir : string) (delete_intermediate : Z) (img : string) : Py unit :=
  let cub := PyPath.joinpath input_dir (PyPath.stem img ++ ".cub") in
  ok <- run_command ["marci2isis"; "from=" ++ img; "to=" ++ cub] "" ;;
  if ok : bool then
    e <- path_exists P cub ;;
    if e && truthy delete_intermediate
    then path_unlink P img ;; logging_info P ("Deleted: " ++ img)
    else ret tt
  else ret tt.

Definition spiceinit_step (cub : string) : Py unit :=
  ok <- run_command ["spiceinit"; "from=" ++ cub]
          ("spiceinit failed for " ++ cub ++ ", trying web...") ;;
  if negb ok then try_spiceinit_with_web cub else ret tt.

Definition marcical_step (input_dir : string) (delete_intermediate : Z) (cub : string) : Py unit :=
  let lev1 := PyPath.joinpath input_dir (PyPath.stem cub ++ ".lev1.cub") in
  ok <- run_command ["marcical"; "from=" ++ cub; "to=" ++ lev1] "" ;;
  if ok : bool then
    e <- path_exists P lev1 ;;
    if e && truthy delete_intermediate
    then path_unlink P cub ;; logging_info P ("Deleted: " ++ cub)
    else ret tt
  else ret tt.

Definition explode_step (input_dir : string) (delete_intermediate : Z) (lev1 : string) : Py unit :=
  let base := PyStr.replace ".lev1" "" (PyPath.stem lev1) in
  ok <- run_command ["explode"; "from=" ++ lev1; "to=" ++ PyPath.joinpath input_dir base] "" ;;
  if ok : bool then
    if truthy delete_intermediate
    then path_unlink P lev1 ;; logging_info P ("Deleted: " ++ lev1)
    else ret tt
  else ret tt.

Definition cam2map_step (input_dir map_template : string) (delete_intermediate : Z) (band : string) : Py unit :=
  let base := PyStr.replace ".band" "" (PyPath.stem band) in
  let lev2 := PyPath.joinpath input_dir (base ++ ".lev2.cub") in
  _ <- run_command ["cam2map"; "from=" ++ band; "map=" ++ map_template; "to=" ++ lev2]
         ("cam2map failed for " ++ band) ;;
  e <- path_exists P lev2 ;;
  if e && truthy delete_intermediate
  then path_unlink P band ;; logging_info P ("Deleted: " ++ band)
  else ret tt.

Definition isis2std_step (input_dir : string) (lev2 : string) : Py unit :=
  let base := PyStr.replace ".lev2" "" (PyPath.stem lev2) in
  _ <- run_command ["isis2std"; "from=" ++ lev2; "to=" ++ PyPath.joinpath input_dir base]
         ("isis2std failed for " ++ lev2) ;;
  ret tt.

(** The six stages, in the order of the source. *)
Inductive Stage := Marci2isis | Spiceinit | Marcical | Explode | Cam2map | Isis2std.

Definition pattern (s : Stage) : string :=
  match s with
  | Marci2isis => "*.IMG"
  | Spiceinit => "*.cub"
  | Marcical => "*.cub"
  | Explode => "*.lev1.cub"
  | Cam2map => "*.band*.cub"
  | Isis2std => "*.lev2.cub"
  end.

Definition step (s : Stage) (input_dir map_template : string) (delete_intermediate : Z)
  : string -> Py unit :=
  match s with
  | Marci2isis => marci2isis_step input_dir delete_intermediate
  | Spiceinit => spiceinit_step
  | Marcical => marcical_step input_dir delete_intermediate
  | Explode => explode_step input_dir delete_intermediate
  | Cam2map => cam2map_step input_dir map_template delete_intermediate
  | Isis2std => isis2std_step input_dir
  end.

(** [for f in sorted(input_dir.glob(pattern)): step(f)] *)
Definition stage (s : Stage) (input_dir map_template : string) (delete_intermediate : Z) : Py unit :=
  l <- sorted_glob P input_dir (pattern s) ;;
  for_each l (step s input_dir map_template delete_intermediate).

Definition complete_message : string := "✅ MARCI processing complete.".

Definition process_images (input_dir map_template : string) (delete_intermediate : Z) : Py unit :=
  stage Marci2isis input_dir map_template delete_intermediate ;;
  stage Spiceinit input_dir map_template delete_intermediate ;;
  stage Marcical input_dir map_template delete_intermediate ;;
  stage Explode input_dir map_template delete_intermediate ;;
  stage Cam2map input_dir map_template delete_intermediate ;;
  stage Isis2std input_dir map_template delete_intermediate ;;
  logging_info P complete_message.

(** *** The command line

    [parse_args] builds an [argparse.ArgumentParser] with a required mutually
    exclusive group ([--map], [--projection] with the preset names as
    choices), [--delete] (an [int] among 0 and 1, default 0) and [--dir]
    (default: the working directory).  The parser is library code; its
    [parse_args] is embedded here, after [argparse.py] of CPython 3.11, for
    this set of options: exact and abbreviated long options, [--opt value]
    and [--opt=value], [-h]/[--help], and the [--] separator.
    [ArgumentParser.error] ends the process with status 2, the help action
    with status 0; what the parser itself writes to the terminal is not part
    of the trace. *)

(** What the namespace holds for an option: [None], a converted value, or
    the empty list that the parser stores for [--opt=--] (it strips the [--]
    and converts what is left, no value at all). *)
Inductive Stored (A : Type) :=
| Absent
| Value (a : A)
| NoValues.

Arguments Absent {A}.
Arguments Value {A} a.
Arguments NoValues {A}.

Record Namespace := mkNamespace {
  ns_map : Stored string;
  ns_projection : Stored string;
  ns_delete : Stored Z;
  ns_dir : Stored string
}.

Inductive Opt := OHelp | OMap | OProjection | ODelete | ODir.

Definition option_strings : list (string * Opt) :=
  [("-h", OHelp); ("--help", OHelp); ("--map", OMap);
   ("--projection", OProjection); ("--delete", ODelete); ("--dir", ODir)].

(** An argument string as the first pass reads it: an argument (['A'] in the
    parser's pattern), the first [--], an option with the option string it
    stands for and the argument glued to it, or an option the parser does not
    know. *)
Inductive Token :=
| TPositional (s : string)
| TSeparator
| TOption (o : Opt) (option_string : string) (explicit_arg : option string)
| TUnknown (s : string).

Definition find_exact (s : string) : option Opt :=
  snd <$> List.find (fun '(n, _) => String.eqb n s) option_strings.

(** [s.split("=", 1)] when [s] holds an [=]. *)
Fixpoint split_eq (s : string) : option (string * string) :=
  match s with
  | EmptyString => None
  | String c s' =>
      if Ascii.eqb c "="%char then Some (EmptyString, s')
      else match split_eq s' with
           | Some (a, b) => Some (String c a, b)
           | None => None
           end
  end.

(** [s] without one final newline: where [$] matches. *)
Fixpoint chomp (s : string) : string :=
  match s with
  | EmptyString => EmptyString
  | String c s' =>
      match s' with
      | EmptyString => if Ascii.eqb c "010"%char then EmptyString else s
      | _ => String c (chomp s')
      end
  end.

(** The expression [^-\d+$|^-\d*\.\d+$] of the parser, on ASCII text. *)
Definition negative_number_like (s : string) : bool :=
  match s with
  | String "-" r0 =>
      let r := chomp r0 in
      (negb (String.eqb r "") && PyStr.all_digits r) ||
      match PyStr.rfind "."%char r with
      | Some i =>
          let a := String.substring 0 i r in
          let b := PyStr.drop (S i) r in
          PyStr.all_digits a && negb (String.eqb b "") && PyStr.all_digits b
      | None => false
      end
  | _ => false
  end.

(** [_get_option_tuples]: the options an abbreviated [arg] may stand for,
    each with its option string and the explicit argument it would carry. *)
Definition option_tuples (arg : string) : list (Opt * string * option string) :=
  if String.prefix "--" arg
  then
    let '(option_prefix, explicit_arg) :=
      match split_eq arg with
      | Some (a, b) => (a, Some b)
      | None => (arg, None)
      end in
    omap (fun '(n, o) => if String.prefix option_prefix n then Some (o, n, explicit_arg) else None)
         option_strings
  else
    let short_option_prefix := String.substring 0 2 arg in
    let short_explicit_arg := PyStr.drop 2 arg in
    omap (fun '(n, o) =>
            if String.eqb n short_option_prefix then Some (o, n, Some short_explicit_arg)
            else if String.prefix arg n then Some (o, n, None)
            else None)
         option_strings.

(** [_parse_optional]: [None] is the error of an ambiguous abbreviation. *)
Definition parse_optional (arg : string) : option Token :=
  match arg with
  | EmptyString => Some (TPositional arg)
  | String c _ =>
      if negb (Ascii.eqb c "-"%char) then Some (TPositional arg)
      else
        match find_exact arg with
        | Some o => Some (TOption o arg None)
        | None =>
            if (String.length arg =? 1)%nat then Some (TPositional arg)
            else
              match
                match split_eq arg with
                | Some (a, b) => (fun o => TOption o a (Some b)) <$> find_exact a
                | None => None
                end
              with
              | Some t => Some t
              | None =>
                  match option_tuples arg with
                  | [(o, n, e)] => Some (TOption o n e)
                  | _ :: _ :: _ => None
                  | [] =>
                      if negative_number_like arg then Some (TPositional arg)
                      else if PyStr.mem " "%char arg then Some (TPositional arg)
                      else Some (TUnknown arg)
                  end
              end
        end
  end.

(** The first pass over the command line: everything after the first [--]
    is an argument. *)
Fixpoint classify (argv : list string) : option (list Token) :=
  match argv with
  | [] => Some []
  | a :: rest =>
      if String.eqb a "--" then Some (TSeparator :: (TPositional <$> rest))
      else
        match parse_optional a, classify rest with
        | Some t, Some ts => Some (t :: ts)
        | _, _ => None
        end
  end.

Record ParseState := mkParseState {
  st_ns : Namespace;
  st_seen_map : bool;
  st_seen_projection : bool
}.

(** [_get_values] on the one argument string of an option: a [--] is
    stripped, which leaves no value. *)
Definition get_values (v : string) : option string :=
  if String.eqb v "--" then None else Some v.

(** [take_action] for an option with its one argument string: conversion and
    choices, conflict with the other member of the group, then storing. *)
Definition take_action (o : Opt) (v : string) (st : ParseState) : Result ParseState :=
  let ns := st_ns st in
  match o with
  | OHelp => Raised (SystemExit 0)
  | OMap =>
      let value := match get_values v with Some s => Value s | None => NoValues end in
      if st_seen_projection st then Raised (SystemExit 2)
      else Ok (mkParseState (mkNamespace value (ns_projection ns) (ns_delete ns) (ns_dir ns))
                            true (st_seen_projection st))
  | OProjection =>
      match get_values v with
      | Some s =>
          if bool_decide (is_Some (PROJECTION_PRESETS !! s))
          then
            if st_seen_map st then Raised (SystemExit 2)
            else Ok (mkParseState (mkNamespace (ns_map ns) (Value s) (ns_delete ns) (ns_dir ns))
                                  (st_seen_map st) true)
          else Raised (SystemExit 2)
      | None =>
          if st_seen_map st then Raised (SystemExit 2)
          else Ok (mkParseState (mkNamespace (ns_map ns) NoValues (ns_delete ns) (ns_dir ns))
                                (st_seen_map st) true)
      end
  | ODelete =>
      match get_values v with
      | Some s =>
          match PyStr.py_int s with
          | Some z =>
              if (z =? 0) || (z =? 1)
              then Ok (mkParseState (mkNamespace (ns_map ns) (ns_projection ns) (Value z) (ns_dir ns))
                                    (st_seen_map st) (st_seen_projection st))
              else Raised (SystemExit 2)
          | None => Raised (SystemExit 2)
          end
      | None =>
          Ok (mkParseState (mkNamespace (ns_map ns) (ns_projection ns) NoValues (ns_dir ns))
                           (st_seen_map st) (st_seen_projection st))
      end
  | ODir =>
      let value := match get_values v with Some s => Value s | None => NoValues end in
      Ok (mkParseState (mkNamespace (ns_map ns) (ns_projection ns) (ns_delete ns) value)
                       (st_seen_map st) (st_seen_projection st))
  end.

(** The second pass: options are taken from left to right, an option without
    explicit argument takes the argument that follows it; [extras] tells
    whether an argument string was left over.  An explicit argument of the
    help option is an error after [--help] and a run of further one-letter
    options after [-h]. *)
Fixpoint consume (ts : list Token) (st : ParseState) (extras : bool) : Result (ParseState * bool) :=
  match ts with
  | [] => Ok (st, extras)
  | TPositional _ :: ts' => consume ts' st true
  | TSeparator :: ts' => consume ts' st true
  | TUnknown _ :: ts' => consume ts' st true
  | TOption OHelp _ None :: _ => Raised (SystemExit 0)
  | TOption OHelp n (Some e) :: _ =>
      if String.prefix "--" n || String.eqb e "" then Raised (SystemExit 2)
      else if forallb (fun c => Ascii.eqb c "h"%char) (list_ascii_of_string e)
      then Raised (SystemExit 0)
      else Raised (SystemExit 2)
  | TOption o _ (Some e) :: ts' =>
      match take_action o e st with
      | Ok st' => consume ts' st' extras
      | Raised x => Raised x
      end
  | TOption o _ None :: TPositional v :: ts' =>
      match take_action o v st with
      | Ok st' => consume ts' st' extras
      | Raised x => Raised x
      end
  | TOption _ _ None :: _ => Raised (SystemExit 2)
  end.

Definition parse_args (sys_argv : list string) : Py Namespace :=
  match classify (tail sys_argv) with
  | None => sys_exit P 2
  | Some ts =>
      match consume ts (mkParseState (mkNamespace Absent Absent (Value 0) (Value (cwd P)))
                                     false false) false with
      | Raised x => raise x
      | Ok (st, extras) =>
          if negb (st_seen_map st || st_seen_projection st) then sys_exit P 2
          else if extras then sys_exit P 2
          else ret (st_ns st)
      end
  end.

(** [main].  An empty list stored for [--delete] is false, as 0 is; one
    stored for [--dir] has no [resolve], one stored for [--projection] cannot
    be looked up in the presets. *)
Definition main (sys_argv : list string) : Py unit :=
  setup_logging ;;
  args <- parse_args sys_argv ;;
  input_dir <-
    match ns_dir args with
    | Value d => ret (resolve P d)
    | NoValues => raise (AttributeError "'list' object has no attribute 'resolve'")
    | Absent => raise (AttributeError "'NoneType' object has no attribute 'resolve'")
    end ;;
  let delete_flag := match ns_delete args with Value z => z | _ => 0 end in
  map_template <-
    match ns_map args with
    | Value m =>
        let map_template := resolve P m in
        is_file <- path_is_file P map_template ;;
        if negb is_file
        then logging_error P ("Map template not found: " ++ map_template) ;; sys_exit P 1
        else ret map_template
    | _ =>
        match ns_projection args with
        | NoValues => raise (TypeError "unhashable type: 'list'")
        | Value projection =>
            let map_template := PyPath.joinpath input_dir (projection ++ ".map") in
            create_projection_map projection map_template ;;
            ret map_template
        | Absent =>
            let map_template := PyPath.joinpath input_dir "None.map" in
            create_projection_map "None" map_template ;;
            ret map_template
        end
    end ;;
  logging_info P ("Using map: " ++ map_template) ;;
  logging_info P ("Processing directory: " ++ input_dir) ;;
  logging_info P ("Delete intermediate files: " ++ (if truthy delete_flag then "Yes" else "No")) ;;
  process_images input_dir map_template delete_flag.

End Code.

Arguments Absent {A}.
Arguments Value {A} a.
Arguments NoValues {A}.

End V3.

(** ** The second iteration: [marci_isis_processing_v2.py]

    [run_command], [try_spiceinit_with_web] and five of the six loop bodies
    have the text of the latest iteration; the SPICE loop and the last log
    record differ in their messages, and [main] reads [sys.argv] itself. *)

Module V2.

Section Code.

Variable P : Platform.
Local Abbreviation Py := (M (Ext P)).

Definition run_command := V3.run_command P.

Definition try_spiceinit_with_web := V3.try_spiceinit_with_web P.

Definition spiceinit_step (cub : string) : Py unit :=
  ok <- run_command ["spiceinit"; "from=" ++ cub]
          ("spiceinit failed for " ++ cub ++ ". Trying web=true...") ;;
  if negb ok then try_spiceinit_with_web cub else ret tt.

Definition step (s : V3.Stage) (input_dir map_template : string) (delete_intermediate : Z)
  : string -> Py unit :=
  match s with
  | V3.Spiceinit => spiceinit_step
  | _ => V3.step P s input_dir map_template delete_intermediate
  end.

Definition stage (s : V3.Stage) (input_dir map_template : string) (delete_intermediate : Z) : Py unit :=
  l <- sorted_glob P input_dir (V3.pattern s) ;;
  for_each l (step s input_dir map_template delete_intermediate).

Definition complete_message : string := "✅ MARCI processing pipeline complete.".

Definition process_images (input_dir map_template : string) (delete_intermediate : Z) : Py unit :=
  stage V3.Marci2isis input_dir map_template delete_intermediate ;;
  stage V3.Spiceinit input_dir map_template delete_intermediate ;;
  stage V3.Marcical input_dir map_template delete_intermediate ;;
  stage V3.Explode input_dir map_template delete_intermediate ;;
  stage V3.Cam2map input_dir map_template delete_intermediate ;;
  stage V3.Isis2std input_dir map_template delete_intermediate ;;
  logging_info P complete_message.

Definition usage (prog : string) : string :=
  "Usage: " ++ prog ++ " path/to/maptemplate.map [0|1]" ++ nl ++
  "0 = keep all intermediate files" ++ nl ++
  "1 = delete intermediate files as you go".

Definition main (sys_argv : list string) : Py unit :=
  V3.setup_logging P ;;
  match sys_argv with
  | [prog; a1; a2] =>
      let map_template := path_str P a1 in
      is_file <- path_is_file P (resolve P a1) ;;
      if negb is_file
      then logging_error P ("Map template not found: " ++ map_template) ;; sys_exit P 1
      else
        match PyStr.py_int a2 with
        | Some delete_flag =>
            if negb ((delete_flag =? 0) || (delete_flag =? 1))
            then logging_error P "Second argument must be 0 or 1." ;; sys_exit P 1
            else
              let current_dir := cwd P in
              logging_info P ("Processing started in " ++ current_dir) ;;
              logging_info P ("Using map template: " ++ map_template) ;;
              logging_info P ("Delete intermediate files: " ++
                               (if truthy delete_flag then "Yes" else "No")) ;;
              process_images current_dir map_template delete_flag
        | None => logging_error P "Second argument must be 0 or 1." ;; sys_exit P 1
        end
  | [] => raise (IndexError "list index out of range")
  | prog :: _ => logging_error P (usage prog) ;; sys_exit P 1
  end.

End Code.

End V2.

(** ** The first iteration: [marci_isis_processing.py]

    [run_command] prints and lets [CalledProcessError] escape; every loop
    body runs its command first and reaches its deletion only when the command
    returned. *)

Module V1.

Section Code.

Variable P : Platform.
Local Abbreviation Py := (M (Ext P)).

Definition run_command (command : list string) : Py unit :=
  print P ("Running: " ++ PyStr.join " " command) ;;
  subprocess_run_check P command.

Definition marci2isis_step (input_dir : string) (delete_intermediate : Z) (img_file : string) : Py unit :=
  let base_name := PyPath.stem img_file in
  let cub_file := PyPath.joinpath input_dir (base_name ++ ".cub") in
  run_command ["marci2isis"; "from=" ++ img_file; "to=" ++ cub_file] ;;
  e <- path_exists P cub_file ;;
  if e && truthy delete_intermediate
  then path_unlink P img_file ;; print P ("Deleted intermediate file: " ++ img_file)
  else ret tt.

Definition spiceinit_step (cub_file : string) : Py unit :=
  run_command ["spiceinit"; "from=" ++ cub_file; "web=true"].

Definition marcical_step (input_dir : string) (delete_intermediate : Z) (cub_file : string) : Py unit :=
  let base_name := PyPath.stem cub_file in
  let lev1_file := PyPath.joinpath input_dir (base_name ++ ".lev1.cub") in
  run_command ["marcical"; "from=" ++ cub_file; "to=" ++ lev1_file] ;;
  e <- path_exists P lev1_file ;;
  if e && truthy delete_intermediate
  then path_unlink P cub_file ;; print P ("Deleted intermediate file: " ++ cub_file)
  else ret tt.

Definition explode_step (input_dir : string) (delete_intermediate : Z) (lev1_file : string) : Py unit :=
  let base_name := PyStr.replace ".lev1" "" (PyPath.stem lev1_file) in
  run_command ["explode"; "from=" ++ lev1_file; "to=" ++ PyPath.joinpath input_dir base_name] ;;
  if truthy delete_intermediate
  then path_unlink P lev1_file ;; print P ("Deleted intermediate file: " ++ lev1_file)
  else ret tt.

Definition cam2map_step (input_dir map_template : string) (delete_intermediate : Z) (band_file : string) : Py unit :=
  let base_name := PyStr.replace ".band" "" (PyPath.stem band_file) in
  let lev2_file := PyPath.joinpath input_dir (base_name ++ ".lev2.cub") in
  run_command ["cam2map"; "from=" ++ band_file; "map=" ++ map_template; "to=" ++ lev2_file] ;;
  e <- path_exists P lev2_file ;;
  if e && truthy delete_intermediate
  then path_unlink P band_file ;; print P ("Deleted intermediate file: " ++ band_file)
  else ret tt.

Definition isis2std_step (input_dir : string) (lev2_file : string) : Py unit :=
  let base_name := PyStr.replace ".lev2" "" (PyPath.stem lev2_file) in
  run_command ["isis2std"; "from=" ++ lev2_file; "to=" ++ PyPath.joinpath input_dir base_name].

Definition step (s : V3.Stage) (input_dir map_template : string) (delete_intermediate : Z)
  : string -> Py unit :=
  match s with
  | V3.Marci2isis => marci2isis_step input_dir delete_intermediate
  | V3.Spiceinit => spiceinit_step
  | V3.Marcical => marcical_step input_dir delete_intermediate
  | V3.Explode => explode_step input_dir delete_intermediate
  | V3.Cam2map => cam2map_step input_dir map_template delete_intermediate
  | V3.Isis2std => isis2std_step input_dir
  end.

Definition stage (s : V3.Stage) (input_dir map_template : string) (delete_intermediate : Z) : Py unit :=
  l <- sorted_glob P input_dir (V3.pattern s) ;;
  for_each l (step s input_dir map_template delete_intermediate).

Definition process_images (input_dir map_template : string) (delete_intermediate : Z) : Py unit :=
  stage V3.Marci2isis input_dir map_template delete_intermediate ;;
  stage V3.Spiceinit input_dir map_template delete_intermediate ;;
  stage V3.Marcical input_dir map_template delete_intermediate ;;
  stage V3.Explode input_dir map_template delete_intermediate ;;
  stage V3.Cam2map input_dir map_template delete_intermediate ;;
  stage V3.Isis2std input_dir map_template delete_intermediate ;;
  print P "Processing complete.".

Definition usage (prog : string) : string :=
  "Usage: " ++ prog ++ " path/to/maptemplate.map [0|1]" ++ nl ++
  "0 = keep all files as you go" ++ nl ++
  "1 = delete old files as you go".

Definition main (sys_argv : list string) : Py unit :=
  match sys_argv with
  | [prog; a1; a2] =>
      let map_template_path := path_str P a1 in
      is_file <- path_is_file P (resolve P a1) ;;
      if negb is_file
      then print P ("Error: Map template file '" ++ map_template_path ++ "' not found.") ;;
           sys_exit P 1
      else
        match PyStr.py_int a2 with
        | Some delete_flag =>
            if negb ((delete_flag =? 0) || (delete_flag =? 1))
            then print P "Error: Second argument must be 0 or 1." ;; sys_exit P 1
            else process_images (cwd P) map_template_path delete_flag
        | None => print P "Error: Second argument must be 0 or 1." ;; sys_exit P 1
        end
  | [] => raise (IndexError "list index out of range")
  | prog :: _ => print P (usage prog) ;; sys_exit P 1
  end.

End Code.

End V1.

(** ** The template writer: [try1.py] *)

Module Try1.

Section Code.

Variable P : Platform.
Local Abbreviation Py := (M (Ext P)).



End Code.

End Try1.

(** The exit status of the interpreter: [SystemExit] carries it, any other
    uncaught exception ends the process with status 1. *)
Definition exit_status {A} (r : Result A) : Z :=
  match r with
  | Ok _ => 0
  | Raised (SystemExit c) => c
  | Raised _ => 1
  end.

(** ** A concrete platform

    Tools that behave as the ISIS tools do on well-formed input: each writes
    the file named by [to=] ([explode] writes two bands, [isis2std] a PNG),
    and a tool fails, writing nothing, on an input whose path holds [bad].
    [spiceinit] without [web=true] fails on a path holding [nokernel]. *)

Module Demo.

Fixpoint arg_value (key : string) (command : list string) : option string :=
  match command with
  | [] => None
  | a :: rest =>
      if String.prefix key a then Some (PyStr.drop (String.length key) a)
      else arg_value key rest
  end.

Definition outputs (command : list string) : list string :=
  match command, arg_value "to=" command with
  | "explode" :: _, Some t => [t ++ ".band0001.cub"; t ++ ".band0002.cub"]
  | "isis2std" :: _, Some t => [t ++ ".png"]
  | _, Some t => [t]
  | _, None => []
  end.

Definition fails (command : list string) : bool :=
  match arg_value "from=" command with
  | Some f =>
      PyStr.contains "bad" f ||
      (bool_decide (head command = Some "spiceinit") && PyStr.contains "nokernel" f &&
       negb (bool_decide ("web=true" ∈ command)))
  | None => false
  end.

Definition demo_tool (command : list string) (w : World unit) : Z * World unit :=
  if fails command then (1, w)
  else (0, mkWorld (list_to_set (outputs command) ∪ files w) tt).

Definition demo_resolve (p : string) : string :=
  if String.prefix "/" p then p else "/work/" ++ p.

(** [repr] of a list of strings that hold no quote and no backslash. *)
Definition repr_list (l : list string) : string :=
  "[" ++ PyStr.join ", " ((fun a => "'" ++ a ++ "'") <$> l) ++ "]".

(** [str] of the [CalledProcessError] of a positive exit status. *)
Definition demo_str (command : list string) (rc : Z) : string :=
  "Command '" ++ repr_list command ++ "' returned non-zero exit status " ++ pretty rc ++ ".".

Definition platform : Platform :=
  mkPlatform unit demo_tool demo_resolve "/work" id demo_str.

Definition world (l : list string) : World unit := mkWorld (list_to_set l) tt.

(** The files of a world, in the order of [sorted]. *)
Definition listing {X} (w : World X) : list string :=
  merge_sort PyPath.str_le (elements (files w)).



End Demo.

(** ** Vocabulary of the statements *)

(** The commands a trace runs, in order. *)
Definition runs (l : list Event) : list (list string) :=
  omap (fun e => match e with Run c => Some c | _ => None end) l.

(** The SPICE fallback is the one command that ends in [web=true]. *)
Definition is_fallback (c : list string) : bool :=
  bool_decide (last c = Some "web=true").

Definition first_runs (l : list Event) : list (list string) :=
  filter (fun c => is_fallback c = false) (runs l).

(** The tools create and overwrite files but remove none. *)
Definition keeps_files (P : Platform) : Prop :=
  forall c w, files w ⊆ files (snd (tool P c w)).

(** Every call of the computation satisfies [R], from every world. *)
Definition all_evs {X A} (R : Event -> Prop) (m : M X A) : Prop :=
  forall w, Forall R (evs (m w)).

Definition not_unlink (e : Event) : Prop :=
  match e with Unlink _ => False | _ => True end.


(** The command each stage of the latest iteration builds for a file. *)
Definition command (s : V3.Stage) (input_dir map_template f : string) : list string :=
  match s with
  | V3.Marci2isis =>
      ["marci2isis"; "from=" ++ f;
       "to=" ++ PyPath.joinpath input_dir (PyPath.stem f ++ ".cub")]
  | V3.Spiceinit => ["spiceinit"; "from=" ++ f]
  | V3.Marcical =>
      ["marcical"; "from=" ++ f;
       "to=" ++ PyPath.joinpath input_dir (PyPath.stem f ++ ".lev1.cub")]
  | V3.Explode =>
      ["explode"; "from=" ++ f;
       "to=" ++ PyPath.joinpath input_dir (PyStr.replace ".lev1" "" (PyPath.stem f))]
  | V3.Cam2map =>
      ["cam2map"; "from=" ++ f; "map=" ++ map_template;
       "to=" ++ PyPath.joinpath input_dir (PyStr.replace ".band" "" (PyPath.stem f) ++ ".lev2.cub")]
  | V3.Isis2std =>
      ["isis2std"; "from=" ++ f;
       "to=" ++ PyPath.joinpath input_dir (PyStr.replace ".lev2" "" (PyPath.stem f))]
  end.

(** The first word of the command each stage runs. *)
Definition tool_name (s : V3.Stage) : string :=
  match s with
  | V3.Marci2isis => "marci2isis"
  | V3.Spiceinit => "spiceinit"
  | V3.Marcical => "marcical"
  | V3.Explode => "explode"
  | V3.Cam2map => "cam2map"
  | V3.Isis2std => "isis2std"
  end.


(** A call that handles one of the files [inputs]: a command reads one of
    them, a removal removes one of them. *)
Definition reads_from (inputs : list string) (e : Event) : Prop :=
  match e with
  | Run c => exists f, f ∈ inputs /\ c !! 1%nat = Some ("from=" ++ f)
  | Unlink p => p ∈ inputs
  | _ => True
  end.

(** The calls of stage [s] for the file [f]. *)
Definition call_of (s : V3.Stage) (f : string) (e : Event) : Prop :=
  match e with
  | Run c => head c = Some (tool_name s) /\ c !! 1%nat = Some ("from=" ++ f)
  | Unlink p => p = f
  | WriteText _ _ => False
  | _ => True
  end.

(** The delete flag [main] passes on: an empty list is false, as 0 is. *)
Definition delete_flag (ns : V3.Namespace) : Z :=
  match V3.ns_delete ns with V3.Value z => z | _ => 0 end.


(** The computation returns normally from every world. *)
Definition returns {X A} (m : M X A) : Prop := forall w, exists a, res (m w) = Ok a.






(** A file that existed is still there afterwards, or the computation has
    called [unlink] on it. *)
Definition vanish_by_unlink_only {X A} (m : M X A) : Prop :=
  forall w g, g ∈ files w -> g ∈ files (wld (m w)) \/ Unlink g ∈ evs (m w).

(** When the computation raises [CalledProcessError], the failing command is
    the last call it has made, and its exit status is not 0. *)
Definition stops_at_failure {X A} (m : M X A) : Prop :=
  forall w c rc, res (m w) = Raised (CalledProcessError c rc) ->
    last (evs (m w)) = Some (Run c) /\ rc <> 0.


(** What [parse_args] can return: exactly one of [--map] and [--projection]
    is set, a projection is the name of a preset or the empty list, the
    delete flag is 0, 1 or the empty list, the directory is never [None]. *)
Definition well_formed (ns : V3.Namespace) : Prop :=
  (V3.ns_map ns = V3.Absent <-> V3.ns_projection ns <> V3.Absent) /\
  (forall pr, V3.ns_projection ns = V3.Value pr -> pr ∈ ["simplecyl"; "polar"; "eqc"]) /\
  V3.ns_delete ns ∈ [V3.Value 0; V3.Value 1; V3.NoValues] /\
  V3.ns_dir ns <> V3.Absent.

(** The invariant of the second pass of the parser. *)
Definition state_ok (st : V3.ParseState) : Prop :=
  (V3.st_seen_map st = true <-> V3.ns_map (V3.st_ns st) <> V3.Absent) /\
  (V3.st_seen_projection st = true <-> V3.ns_projection (V3.st_ns st) <> V3.Absent) /\
  (V3.st_seen_map st = true -> V3.st_seen_projection st = true -> False) /\
  (forall pr, V3.ns_projection (V3.st_ns st) = V3.Value pr -> pr ∈ ["simplecyl"; "polar"; "eqc"]) /\
  V3.ns_delete (V3.st_ns st) ∈ [V3.Value 0; V3.Value 1; V3.NoValues] /\
  V3.ns_dir (V3.st_ns st) <> V3.Absent.

(** The command each stage of the first iteration builds for a file. *)
Definition first_iteration_command (s : V3.Stage) (input_dir map_template f : string)
  : list string :=
  match s with
  | V3.Spiceinit => ["spiceinit"; "from=" ++ f; "web=true"]
  | _ => command s input_dir map_template f
  end.



(** * Properties *)

(** ** The string and path functions on the names of the pipeline *)

Example stem_img : PyPath.stem "/data/P01_001.IMG" = "P01_001".
Proof. reflexivity. Qed.

Example stem_lev1 : PyPath.stem "/data/P01_001.lev1.cub" = "P01_001.lev1".
Proof. reflexivity. Qed.

Example stem_hidden : PyPath.stem "/data/.IMG" = ".IMG".
Proof. reflexivity. Qed.

Example replace_lev1 : PyStr.replace ".lev1" "" "P01.lev1" = "P01".
Proof. reflexivity. Qed.

Example replace_band : PyStr.replace ".band" "" "P01.band0003" = "P010003".
Proof. reflexivity. Qed.

Example fnmatch_band : PyPath.fnmatch "*.band*.cub" "P01.band0003.cub" = true.
Proof. reflexivity. Qed.

Example fnmatch_lev1_is_cub : PyPath.fnmatch "*.cub" "P01.lev1.cub" = true.
Proof. reflexivity. Qed.

Example fnmatch_case : PyPath.fnmatch "*.IMG" "P01.img" = false.
Proof. reflexivity. Qed.

Example sorted_glob_ex :
  PyPath.sorted_glob "/d" "*.IMG" {[ "/d/B.IMG"; "/d/A.IMG"; "/d/A.cub"; "/d/sub/C.IMG"; "/e/D.IMG" ]}
  = ["/d/A.IMG"; "/d/B.IMG"].
Proof. vm_compute. reflexivity. Qed.

(** ** The monad and its traces *)

Section Traces.

Context {X : Type}.

Lemma bind_evs_ok {A B} (m : M X A) (f : A -> M X B) w a :
  res (m w) = Ok a ->
  evs (bind m f w) = (evs (m w) ++ evs (f a (wld (m w))))%list /\
  res (bind m f w) = res (f a (wld (m w))) /\
  wld (bind m f w) = wld (f a (wld (m w))).
Proof.
  unfold bind. destruct (m w) as [r w1 e1]; simpl. intros ->.
  by destruct (f a w1).
Qed.

Lemma bind_evs_raised {A B} (m : M X A) (f : A -> M X B) w e :
  res (m w) = Raised e ->
  evs (bind m f w) = evs (m w) /\ res (bind m f w) = Raised e /\
  wld (bind m f w) = wld (m w).
Proof. unfold bind. destruct (m w) as [r w1 e1]; simpl. by intros ->. Qed.

Lemma all_evs_ret {A} R (a : A) : all_evs R (ret (X := X) a).
Proof. intros w. constructor. Qed.

Lemma all_evs_raise {A} R e : all_evs R (raise (X := X) (A := A) e).
Proof. intros w. constructor. Qed.

Lemma all_evs_emit R e : R e -> all_evs R (emit (X := X) e).
Proof. intros H w. by constructor. Qed.

Lemma all_evs_bind {A B} R (m : M X A) (f : A -> M X B) :
  all_evs R m -> (forall a, all_evs R (f a)) -> all_evs R (bind m f).
Proof.
  intros Hm Hf w. unfold bind. specialize (Hm w).
  destruct (m w) as [[a|e] w1 e1]; simpl in *; [| done].
  specialize (Hf a w1). destruct (f a w1) as [r w2 e2]; simpl in *.
  apply Forall_app. by split.
Qed.

Lemma all_evs_try_except {A} R (m : M X A) h :
  all_evs R m -> (forall e k, h e = Some k -> all_evs R k) -> all_evs R (try_except m h).
Proof.
  intros Hm Hh w. unfold try_except. specialize (Hm w).
  destruct (m w) as [[a|e] w1 e1]; simpl in *; [done |].
  destruct (h e) as [k|] eqn:Eh; [| done].
  specialize (Hh e k Eh w1). destruct (k w1) as [r w2 e2]; simpl in *.
  apply Forall_app. by split.
Qed.

Lemma all_evs_for_each R (l : list string) (body : string -> M X unit) :
  (forall x, x ∈ l -> all_evs R (body x)) -> all_evs R (for_each l body).
Proof.
  induction l as [|x l IH]; intros H; simpl.
  - apply all_evs_ret.
  - apply all_evs_bind.
    + apply H. left.
    + intros _. apply IH. intros y Hy. apply H. by right.
Qed.

Lemma all_evs_if {A} R (b : bool) (m1 m2 : M X A) :
  all_evs R m1 -> all_evs R m2 -> all_evs R (if b then m1 else m2).
Proof. by destruct b. Qed.

End Traces.

(** ** Calls of the primitives and of [run_command] *)

Section Calls.

Variable P : Platform.

Lemma all_evs_subprocess R c : R (Run c) -> all_evs R (subprocess_run_check P c).
Proof.
  intros H w. unfold subprocess_run_check. destruct (tool P c w). simpl. by constructor.
Qed.

Lemma all_evs_exists R p : all_evs R (path_exists P p).
Proof. intros w. constructor. Qed.

Lemma all_evs_unlink R p : R (Unlink p) -> all_evs R (path_unlink P p).
Proof.
  intros H w. unfold path_unlink. case_bool_decide; simpl; by constructor.
Qed.

Lemma all_evs_write_text R p t : R (WriteText p t) -> all_evs R (path_write_text P p t).
Proof. intros H w. by constructor. Qed.

Lemma all_evs_sorted_glob R d pat : all_evs R (sorted_glob P d pat).
Proof. intros w. constructor. Qed.

Lemma all_evs_setup_logging R : all_evs R (V3.setup_logging P).
Proof. intros w. constructor. Qed.

(** A predicate on calls that holds of every log record and of [Run c]
    holds of every call of [run_command c]. *)
Lemma all_evs_run_command R c msg :
  (forall l s, R (Log l s)) -> R (Run c) -> all_evs R (V3.run_command P c msg).
Proof.
  intros Hlog Hrun. unfold V3.run_command.
  apply all_evs_bind; [apply all_evs_emit, Hlog | intros _].
  apply all_evs_try_except.
  - apply all_evs_bind; [by apply all_evs_subprocess | intros _; apply all_evs_ret].
  - intros e k. destruct e; intros [= <-].
    apply all_evs_bind; [apply all_evs_emit, Hlog | intros _; apply all_evs_ret].
Qed.

Lemma all_evs_try_spiceinit_with_web R cub :
  (forall l s, R (Log l s)) -> (forall c, R (Run c)) ->
  all_evs R (V3.try_spiceinit_with_web P cub).
Proof.
  intros Hlog Hrun. unfold V3.try_spiceinit_with_web.
  apply all_evs_bind; [apply all_evs_emit, Hlog | intros _].
  apply all_evs_bind; [by apply all_evs_run_command | intros _; apply all_evs_ret].
Qed.

Lemma all_evs_V1_run_command R c :
  (forall s, R (Stdout s)) -> R (Run c) -> all_evs R (V1.run_command P c).
Proof.
  intros Hout Hrun. unfold V1.run_command.
  apply all_evs_bind; [apply all_evs_emit, Hout | intros _].
  by apply all_evs_subprocess.
Qed.

(** [run_command] never raises, and tells whether the exit status was 0. *)
Lemma run_command_spec c msg w :
  let rc := fst (tool P c w) in
  let o := V3.run_command P c msg w in
  wld o = snd (tool P c w) /\
  res o = Ok (rc =? 0) /\
  evs o =
    if rc =? 0
    then [Log INFO ("Running: " ++ PyStr.join " " c); Run c]
    else [Log INFO ("Running: " ++ PyStr.join " " c); Run c;
          Log ERROR (msg ++ nl ++ "Command failed: " ++ CalledProcessError_str P c rc)].
Proof.
  unfold V3.run_command, bind, try_except, subprocess_run_check, logging_info,
    logging_error, emit, ret. simpl.
  destruct (tool P c w) as [rc w']. simpl. destruct (rc =? 0); simpl; done.
Qed.

End Calls.

(** ** No deletion without the flag, none in the export stage *)

Section NoUnlink.

Variable P : Platform.

Lemma step_keep_all s d m : forall f, all_evs not_unlink (V3.step P s d m 0 f).
Proof.
  intros f.
  assert (Hrun : forall c msg, all_evs not_unlink (V3.run_command P c msg))
    by (intros; by apply all_evs_run_command).
  destruct s; simpl.
  - unfold V3.marci2isis_step. apply all_evs_bind; [apply Hrun | intros ok].
    apply all_evs_if; [| apply all_evs_ret].
    apply all_evs_bind; [apply all_evs_exists | intros e].
    rewrite andb_false_r. apply all_evs_ret.
  - unfold V3.spiceinit_step. apply all_evs_bind; [apply Hrun | intros ok].
    apply all_evs_if; [| apply all_evs_ret].
    by apply all_evs_try_spiceinit_with_web.
  - unfold V3.marcical_step. apply all_evs_bind; [apply Hrun | intros ok].
    apply all_evs_if; [| apply all_evs_ret].
    apply all_evs_bind; [apply all_evs_exists | intros e].
    rewrite andb_false_r. apply all_evs_ret.
  - unfold V3.explode_step. apply all_evs_bind; [apply Hrun | intros ok].
    apply all_evs_if; apply all_evs_ret.
  - unfold V3.cam2map_step. apply all_evs_bind; [apply Hrun | intros _].
    apply all_evs_bind; [apply all_evs_exists | intros e].
    rewrite andb_false_r. apply all_evs_ret.
  - unfold V3.isis2std_step. apply all_evs_bind; [apply Hrun | intros _; apply all_evs_ret].
Qed.

Lemma stage_all_evs R s d m del :
  (forall f, all_evs R (V3.step P s d m del f)) -> all_evs R (V3.stage P s d m del).
Proof.
  intros H. unfold V3.stage.
  apply all_evs_bind; [apply all_evs_sorted_glob | intros l].
  apply all_evs_for_each. intros x _. apply H.
Qed.

(** C2. With delete-intermediate = 0 no stage of [process_images] calls
    [unlink], whatever the exit statuses of the external commands: no call in
    the trace of the run, from any world and with any tools, is an [Unlink]. *)
Theorem no_unlink_without_flag (input_dir map_template : string) (w : World (Ext P)) :
  forall p, Unlink p ∉ evs (V3.process_images P input_dir map_template 0 w).
Proof.
  intros p Hin.
  assert (H : all_evs not_unlink (V3.process_images P input_dir map_template 0)).
  { unfold V3.process_images.
    repeat (apply all_evs_bind; [apply stage_all_evs, step_keep_all | intros _]).
    by apply all_evs_emit. }
  specialize (H w). rewrite Forall_forall in H. apply (H _ Hin).
Qed.

(** C8. The PNG-export stage ([isis2std]) never calls [unlink]: for every
    value of the delete flag, every world and any tools, whatever the exit
    status of the command, no call of the stage, and no call of its loop
    body on a file, is an [Unlink]. *)
Theorem isis2std_never_unlinks (input_dir map_template : string) (delete_intermediate : Z)
    (w : World (Ext P)) :
  (forall p, Unlink p ∉ evs (V3.stage P V3.Isis2std input_dir map_template delete_intermediate w)) /\
  (forall lev2, Unlink lev2 ∉ evs (V3.isis2std_step P input_dir lev2 w)).
Proof.
  assert (Hstep : forall f, all_evs not_unlink (V3.isis2std_step P input_dir f)).
  { intros f. unfold V3.isis2std_step.
    apply all_evs_bind; [by apply all_evs_run_command | intros _; apply all_evs_ret]. }
  split.
  - intros p Hin.
    pose proof (stage_all_evs not_unlink V3.Isis2std input_dir map_template
                  delete_intermediate Hstep w) as H.
    rewrite Forall_forall in H. apply (H _ Hin).
  - intros lev2 Hin. specialize (Hstep lev2 w). rewrite Forall_forall in Hstep.
    apply (Hstep _ Hin).
Qed.

End NoUnlink.

(** ** The deletion policy of each stage *)

Section Deletion.

Variable P : Platform.

Ltac run_step :=
  unfold V3.step, V3.marci2isis_step, V3.spiceinit_step, V3.marcical_step,
    V3.explode_step, V3.cam2map_step, V3.isis2std_step, V3.try_spiceinit_with_web,
    V3.run_command, bind, try_except, subprocess_run_check, logging_info,
    logging_warning, logging_error, emit, ret, path_exists, path_unlink, command;
  simpl.

(** C1, as the code has it. With delete-intermediate = 1, for a file [f]
    handled in a world [w]: the [marci2isis] and [marcical] stages call
    [unlink] on their input exactly when the command exited with status 0 and
    the expected output exists afterwards; the [explode] stage calls it
    exactly when the command exited with status 0, without looking at any
    output; the [spiceinit] and [isis2std] stages never call it; the
    [cam2map] stage calls it only if the expected output exists, and does
    call it when the command exited with status 0 and the output exists.  No
    stage calls [unlink] on anything but its input. *)
Theorem deletion_policy (d m f : string) (w : World (Ext P)) :
  let rc s := fst (tool P (command s d m f) w) in
  let after s := files (snd (tool P (command s d m f) w)) in
  let calls s := evs (V3.step P s d m 1 f w) in
  (Unlink f ∈ calls V3.Marci2isis <->
     rc V3.Marci2isis = 0 /\
     PyPath.joinpath d (PyPath.stem f ++ ".cub") ∈ after V3.Marci2isis) /\
  (Unlink f ∈ calls V3.Marcical <->
     rc V3.Marcical = 0 /\
     PyPath.joinpath d (PyPath.stem f ++ ".lev1.cub") ∈ after V3.Marcical) /\
  (Unlink f ∈ calls V3.Explode <-> rc V3.Explode = 0) /\
  ((Unlink f ∈ calls V3.Cam2map ->
      PyPath.joinpath d (PyStr.replace ".band" "" (PyPath.stem f) ++ ".lev2.cub")
        ∈ after V3.Cam2map) /\
   (rc V3.Cam2map = 0 ->
    PyPath.joinpath d (PyStr.replace ".band" "" (PyPath.stem f) ++ ".lev2.cub")
      ∈ after V3.Cam2map ->
    Unlink f ∈ calls V3.Cam2map)) /\
  (forall p, Unlink p ∉ calls V3.Spiceinit) /\
  (forall p, Unlink p ∉ calls V3.Isis2std) /\
  (forall s p, Unlink p ∈ calls s -> p = f).
Proof.
  cbv zeta. split_and!.
  - run_step. destruct (tool P _ w) as [rc w']; simpl.
    destruct (Z.eqb_spec rc 0); simpl; [| set_solver].
    rewrite andb_true_r. case_bool_decide; simpl; [| set_solver].
    case_bool_decide; simpl; set_solver.
  - run_step. destruct (tool P _ w) as [rc w']; simpl.
    destruct (Z.eqb_spec rc 0); simpl; [| set_solver].
    rewrite andb_true_r. case_bool_decide; simpl; [| set_solver].
    case_bool_decide; simpl; set_solver.
  - run_step. destruct (tool P _ w) as [rc w']; simpl.
    destruct (Z.eqb_spec rc 0); simpl; [| set_solver].
    case_bool_decide; simpl; set_solver.
  - run_step. destruct (tool P _ w) as [rc w']; simpl.
    destruct (Z.eqb_spec rc 0); simpl.
    all: rewrite andb_true_r; case_bool_decide; simpl; [| set_solver].
    all: intros _; done.
  - run_step. destruct (tool P _ w) as [rc w']; simpl. intros ->.
    simpl. rewrite andb_true_r. case_bool_decide; simpl; [| done].
    intros _. case_bool_decide; simpl; set_solver.
  - intros p. run_step. destruct (tool P _ w) as [rc w']; simpl.
    destruct (Z.eqb_spec rc 0); simpl; [set_solver |].
    destruct (tool P _ w') as [rc2 w2]; simpl.
    destruct (Z.eqb_spec rc2 0); simpl; set_solver.
  - intros p. run_step. destruct (tool P _ w) as [rc w']; simpl.
    destruct (Z.eqb_spec rc 0); simpl; set_solver.
  - intros s p. destruct s; run_step.
    all: destruct (tool P _ w) as [rc w']; simpl.
    all: destruct (Z.eqb_spec rc 0); simpl; try set_solver.
    all: rewrite ?andb_true_r; repeat (case_bool_decide; simpl); try set_solver.
    all: destruct (tool P _ w') as [rc2 w2]; simpl.
    all: destruct (Z.eqb_spec rc2 0); simpl; set_solver.
Qed.

End Deletion.

(** ** Loops over a list that is already built *)

Lemma runs_app (l1 l2 : list Event) : runs (l1 ++ l2) = (runs l1 ++ runs l2)%list.
Proof. unfold runs. apply omap_app. Qed.

Lemma first_runs_app (l1 l2 : list Event) :
  first_runs (l1 ++ l2) = (first_runs l1 ++ first_runs l2)%list.
Proof. unfold first_runs. rewrite runs_app. apply filter_app. Qed.

Section Loops.

Context {X : Type}.

(** A loop whose body returns normally under an invariant on the files still
    to be handled and the world returns normally, and runs the first command
    of each file in the order of the list. *)
Lemma for_each_first_runs (body : string -> M X unit) (cmd : string -> list string)
    (Inv : list string -> World X -> Prop) :
  (forall x rest w, Inv (x :: rest) w ->
     res (body x w) = Ok tt /\ first_runs (evs (body x w)) = [cmd x] /\
     Inv rest (wld (body x w))) ->
  forall l w, Inv l w ->
    res (for_each l body w) = Ok tt /\
    first_runs (evs (for_each l body w)) = cmd <$> l.
Proof.
  intros Hbody. induction l as [|x l IH]; intros w HI; simpl.
  - done.
  - destruct (Hbody x l w HI) as (Hres & Hruns & HI').
    destruct (bind_evs_ok (body x) (fun _ => for_each l body) w tt Hres) as (-> & -> & _).
    destruct (IH _ HI') as [Hr Hf]. split; [done |].
    rewrite first_runs_app, Hruns, Hf. done.
Qed.

(** Whatever the body raises, the first commands run by the loop are those of
    an initial segment of the list. *)
Lemma for_each_first_runs_prefix (body : string -> M X unit) (cmd : string -> list string) :
  (forall x w, first_runs (evs (body x w)) = [cmd x]) ->
  forall l w, first_runs (evs (for_each l body w)) `prefix_of` (cmd <$> l).
Proof.
  intros Hbody. induction l as [|x l IH]; intros w; simpl.
  - done.
  - unfold bind. specialize (Hbody x w).
    destruct (body x w) as [[[]|e] w1 e1]; simpl in *.
    + specialize (IH w1). destruct (for_each l body w1) as [r w2 e2]; simpl in *.
      rewrite first_runs_app, Hbody. simpl. by apply prefix_cons.
    + rewrite Hbody. apply prefix_cons, prefix_nil.
Qed.

End Loops.

(** ** The commands of each loop body *)

Lemma first_runs_nil : first_runs [] = [].
Proof. done. Qed.

Lemma first_runs_log lvl s l : first_runs (Log lvl s :: l) = first_runs l.
Proof. done. Qed.

Lemma first_runs_unlink p l : first_runs (Unlink p :: l) = first_runs l.
Proof. done. Qed.

Lemma first_runs_stdout s l : first_runs (Stdout s :: l) = first_runs l.
Proof. done. Qed.

Lemma first_runs_run c l :
  first_runs (Run c :: l) = if is_fallback c then first_runs l else c :: first_runs l.
Proof.
  unfold first_runs. simpl. rewrite filter_cons.
  destruct (is_fallback c); by case_decide.
Qed.

Lemma is_fallback_command s d m f : is_fallback (command s d m f) = false.
Proof.
  unfold is_fallback. apply bool_decide_eq_false. destruct s; simpl; intros [=].
Qed.

Lemma is_fallback_web cub : is_fallback ["spiceinit"; "from=" ++ cub; "web=true"] = true.
Proof. unfold is_fallback. by apply bool_decide_eq_true. Qed.

Section StepCommands.

Variable P : Platform.

Ltac run_step :=
  unfold V3.step, V3.marci2isis_step, V3.spiceinit_step, V3.marcical_step,
    V3.explode_step, V3.cam2map_step, V3.isis2std_step, V3.try_spiceinit_with_web,
    V3.run_command, bind, try_except, subprocess_run_check, logging_info,
    logging_warning, logging_error, emit, ret, path_exists, path_unlink, command;
  simpl.

Ltac fr := rewrite ?first_runs_log, ?first_runs_unlink, ?first_runs_stdout, ?first_runs_nil.

Lemma step_first_runs s d m del f (w : World (Ext P)) :
  first_runs (evs (V3.step P s d m del f w)) = [command s d m f].
Proof.
  pose proof (is_fallback_command s d m f) as Hc.
  destruct s; run_step; unfold command in Hc.
  - destruct (tool P _ w) as [rc w']; simpl. destruct (rc =? 0); simpl.
    + destruct (bool_decide _ && truthy del); simpl.
      * case_bool_decide; simpl; fr; rewrite first_runs_run, Hc; by fr.
      * fr; rewrite first_runs_run, Hc; by fr.
    + fr; rewrite first_runs_run, Hc; by fr.
  - destruct (tool P _ w) as [rc w']; simpl. destruct (rc =? 0); simpl.
    + fr; rewrite first_runs_run, Hc; by fr.
    + destruct (tool P _ w') as [rc2 w2]; simpl. destruct (rc2 =? 0); simpl.
      all: fr; rewrite first_runs_run, Hc; fr; rewrite first_runs_run, is_fallback_web; by fr.
  - destruct (tool P _ w) as [rc w']; simpl. destruct (rc =? 0); simpl.
    + destruct (bool_decide _ && truthy del); simpl.
      * case_bool_decide; simpl; fr; rewrite first_runs_run, Hc; by fr.
      * fr; rewrite first_runs_run, Hc; by fr.
    + fr; rewrite first_runs_run, Hc; by fr.
  - destruct (tool P _ w) as [rc w']; simpl. destruct (rc =? 0); simpl.
    + destruct (truthy del); simpl.
      * case_bool_decide; simpl; fr; rewrite first_runs_run, Hc; by fr.
      * fr; rewrite first_runs_run, Hc; by fr.
    + fr; rewrite first_runs_run, Hc; by fr.
  - destruct (tool P _ w) as [rc w']; simpl. destruct (rc =? 0); simpl.
    all: destruct (bool_decide _ && truthy del); simpl.
    all: try case_bool_decide; simpl; fr; rewrite first_runs_run, Hc; by fr.
  - destruct (tool P _ w) as [rc w']; simpl. destruct (rc =? 0); simpl.
    all: fr; rewrite first_runs_run, Hc; by fr.
Qed.

End StepCommands.

Section StepResults.

Variable P : Platform.

Ltac run_step :=
  unfold V3.step, V3.marci2isis_step, V3.spiceinit_step, V3.marcical_step,
    V3.explode_step, V3.cam2map_step, V3.isis2std_step, V3.try_spiceinit_with_web,
    V3.run_command, bind, try_except, subprocess_run_check, logging_info,
    logging_warning, logging_error, emit, ret, path_exists, path_unlink, command;
  simpl.



End StepResults.

(** ** Paths and globbing *)

Lemma prefix_app (a s : string) : String.prefix a (a ++ s) = true.
Proof.
  induction a as [|c a IH]; [destruct s; reflexivity |].
  change (String.prefix (String c a) (String c (a ++ s)) = true). simpl.
  destruct (ascii_dec c c); [done | congruence].
Qed.

Lemma drop_app (a s : string) : PyStr.drop (String.length a) (a ++ s) = s.
Proof. induction a as [|c a IH]; [destruct s; reflexivity | exact IH]. Qed.

Lemma prefix_drop (a p : string) :
  String.prefix a p = true -> p = a ++ PyStr.drop (String.length a) p.
Proof.
  revert p. induction a as [|c a IH]; intros p.
  - intros _. destruct p; reflexivity.
  - destruct p as [|c' p]; [done |]. simpl.
    destruct (ascii_dec c c') as [<- |]; [| done].
    intros H. change (String c p = String c (a ++ PyStr.drop (String.length a) p)).
    by rewrite <- (IH p H).
Qed.

(** [child_name] and [joinpath] are inverse to each other: an entry of [d] is
    [d] joined with its name. *)
Lemma child_name_joinpath d p n : PyPath.child_name d p = Some n -> PyPath.joinpath d n = p.
Proof.
  unfold PyPath.child_name, PyPath.joinpath.
  destruct (String.prefix (PyPath.dir_prefix d) p) eqn:Hp; [| done].
  destruct (String.eqb _ "") eqn:He; simpl; [done |].
  destruct (PyStr.mem _ _); [done |]. intros [= <-]. rewrite He.
  symmetry. by apply prefix_drop.
Qed.

Lemma joinpath_child_name d n :
  n <> "" -> PyStr.mem "/"%char n = false ->
  PyPath.child_name d (PyPath.joinpath d n) = Some n.
Proof.
  intros Hn Hm. unfold PyPath.child_name, PyPath.joinpath.
  destruct (String.eqb_spec n ""); [done |].
  rewrite prefix_app, drop_app, Hm.
  by destruct (String.eqb_spec n "").
Qed.

Lemma child_name_inj d p q n :
  PyPath.child_name d p = Some n -> PyPath.child_name d q = Some n -> p = q.
Proof. intros Hp Hq. by rewrite <- (child_name_joinpath _ _ _ Hp), <- (child_name_joinpath _ _ _ Hq). Qed.

Lemma ascii_compare_refl c : Ascii.compare c c = Eq.
Proof. unfold Ascii.compare. apply N.compare_refl. Qed.







(** The names [sorted_glob] sorts: those of the entries of [d] that match. *)
Lemma glob_names_elem d pat (fs : gset string) n :
  n ∈ filter (fun n => PyPath.fnmatch pat n = true) (omap (PyPath.child_name d) (elements fs)) <->
  PyPath.joinpath d n ∈ fs /\ PyPath.child_name d (PyPath.joinpath d n) = Some n /\
  PyPath.fnmatch pat n = true.
Proof.
  rewrite list_elem_of_filter, list_elem_of_omap. split.
  - intros [Hm (p & Hp%elem_of_elements & Hc)].
    pose proof (child_name_joinpath _ _ _ Hc) as Hj. rewrite Hj. done.
  - intros (Hin & Hc & Hm). split; [done |]. exists (PyPath.joinpath d n).
    by rewrite elem_of_elements.
Qed.

Lemma glob_names_NoDup d pat (fs : gset string) :
  NoDup (filter (fun n => PyPath.fnmatch pat n = true) (omap (PyPath.child_name d) (elements fs))).
Proof.
  apply NoDup_filter.
  pose proof (NoDup_elements fs) as Hnd. induction Hnd as [|p l Hp Hnd IH]; simpl; [constructor |].
  destruct (PyPath.child_name d p) as [n|] eqn:Hc; [| done].
  constructor; [| done]. rewrite list_elem_of_omap. intros (q & Hq & Hcq).
  by rewrite (child_name_inj _ _ _ _ Hc Hcq) in Hp.
Qed.

(** [sorted(d.glob(pat))] lists exactly the existing entries of [d] whose
    name matches [pat]. *)
Lemma sorted_glob_elem d pat (fs : gset string) p :
  p ∈ PyPath.sorted_glob d pat fs <->
  p ∈ fs /\ exists n, PyPath.child_name d p = Some n /\ PyPath.fnmatch pat n = true.
Proof.
  unfold PyPath.sorted_glob. rewrite list_elem_of_fmap. split.
  - intros (n & -> & Hn). rewrite merge_sort_Permutation in Hn.
    apply glob_names_elem in Hn as (Hin & Hc & Hm). eauto.
  - intros (Hin & n & Hc & Hm). exists n.
    pose proof (child_name_joinpath _ _ _ Hc) as Hj. split; [done |].
    rewrite merge_sort_Permutation. apply glob_names_elem. by rewrite Hj.
Qed.

Lemma sorted_glob_NoDup d pat (fs : gset string) : NoDup (PyPath.sorted_glob d pat fs).
Proof.
  unfold PyPath.sorted_glob. apply NoDup_fmap_2_strong.
  - intros n1 n2 H1 H2 Heq. rewrite merge_sort_Permutation in H1, H2.
    apply glob_names_elem in H1 as (_ & H1 & _). apply glob_names_elem in H2 as (_ & H2 & _).
    rewrite Heq in H1. congruence.
  - rewrite merge_sort_Permutation. apply glob_names_NoDup.
Qed.


Lemma rfind_go_none c i s : PyStr.mem c s = false -> PyStr.rfind_go c i s = None.
Proof.
  revert i. induction s as [|x s IH]; intros i; simpl; [done |].
  intros [Hx Hs]%orb_false_iff. by rewrite (IH _ Hs), Hx.
Qed.

Lemma rfind_go_last c i a s :
  PyStr.mem c s = false ->
  PyStr.rfind_go c i (a ++ String c s) = Some (i + String.length a)%nat.
Proof.
  intros Hs. revert i. induction a as [|x a IH]; intros i.
  - change (PyStr.rfind_go c i (String c s) = Some (i + 0)%nat). simpl.
    rewrite (rfind_go_none _ _ _ Hs), Ascii.eqb_refl. f_equal. lia.
  - change (PyStr.rfind_go c i (String x (a ++ String c s)) = Some (i + S (String.length a))%nat).
    simpl. rewrite IH. f_equal. lia.
Qed.

Lemma dir_prefix_slash d : exists a, PyPath.dir_prefix d = a ++ "/".
Proof.
  unfold PyPath.dir_prefix. destruct (String.eqb d "/"); [by exists "" | by exists d].
Qed.

(** The name of an entry of [d] is the last component of its path. *)
Lemma child_name_name d p n : PyPath.child_name d p = Some n -> PyPath.name p = n.
Proof.
  intros Hc. pose proof (child_name_joinpath _ _ _ Hc) as <-.
  revert Hc. unfold PyPath.child_name, PyPath.joinpath.
  destruct (String.prefix _ _); [| done].
  destruct (String.eqb _ "") eqn:He; simpl; [done |].
  destruct (PyStr.mem _ _) eqn:Hm; [done |]. intros [= Hn]. rewrite Hn in *. rewrite He.
  destruct (dir_prefix_slash d) as [a ->]. unfold PyPath.name, PyStr.rfind.
  replace ((a ++ "/") ++ n) with (a ++ String "/" n)
    by (clear; induction a as [|x a IH]; [reflexivity |];
        change (String x (a ++ String "/" n) = String x ((a ++ "/") ++ n)); by rewrite IH).
  rewrite (rfind_go_last _ _ _ _ Hm). simpl.
  clear. induction a as [|x a IH]; [by destruct n | exact IH].
Qed.


(** ** The loop bodies, call by call *)

Section StepCalls.

Variable P : Platform.

(** Whatever holds of every log record, of the removal of [f] and of the
    commands built for [f] holds of every call a loop body makes for [f]. *)
Lemma step_all_evs (R : Event -> Prop) s d m del f :
  (forall l msg, R (Log l msg)) -> R (Unlink f) -> R (Run (command s d m f)) ->
  (s = V3.Spiceinit -> R (Run ["spiceinit"; "from=" ++ f; "web=true"])) ->
  all_evs R (V3.step P s d m del f).
Proof.
  intros Hlog Hun Hrun Hweb.
  assert (Hdel : all_evs R (path_unlink P f ;; logging_info P ("Deleted: " ++ f))).
  { apply all_evs_bind; [by apply all_evs_unlink | intros _; apply all_evs_emit, Hlog]. }
  destruct s; simpl in *.
  - unfold V3.marci2isis_step. apply all_evs_bind; [by apply all_evs_run_command | intros ok].
    apply all_evs_if; [| apply all_evs_ret].
    apply all_evs_bind; [apply all_evs_exists | intros e].
    apply all_evs_if; [done | apply all_evs_ret].
  - unfold V3.spiceinit_step. apply all_evs_bind; [by apply all_evs_run_command | intros ok].
    apply all_evs_if; [| apply all_evs_ret].
    unfold V3.try_spiceinit_with_web.
    apply all_evs_bind; [apply all_evs_emit, Hlog | intros _].
    apply all_evs_bind; [apply all_evs_run_command; auto | intros _; apply all_evs_ret].
  - unfold V3.marcical_step. apply all_evs_bind; [by apply all_evs_run_command | intros ok].
    apply all_evs_if; [| apply all_evs_ret].
    apply all_evs_bind; [apply all_evs_exists | intros e].
    apply all_evs_if; [done | apply all_evs_ret].
  - unfold V3.explode_step. apply all_evs_bind; [by apply all_evs_run_command | intros ok].
    apply all_evs_if; [| apply all_evs_ret].
    apply all_evs_if; [done | apply all_evs_ret].
  - unfold V3.cam2map_step. apply all_evs_bind; [by apply all_evs_run_command | intros _].
    apply all_evs_bind; [apply all_evs_exists | intros e].
    apply all_evs_if; [done | apply all_evs_ret].
  - unfold V3.isis2std_step.
    apply all_evs_bind; [by apply all_evs_run_command | intros _; apply all_evs_ret].
Qed.

Lemma step_call_of s d m del f : all_evs (call_of s f) (V3.step P s d m del f).
Proof. apply step_all_evs; try done; [by destruct s | by intros ->]. Qed.

(** The same for the first iteration, whose loop bodies print instead of
    logging. *)
Lemma V1_step_call_of s d m del f : all_evs (call_of s f) (V1.step P s d m del f).
Proof.
  assert (Hdel : all_evs (call_of s f)
            (path_unlink P f ;; print P ("Deleted intermediate file: " ++ f))).
  { apply all_evs_bind; [by apply all_evs_unlink | intros _; by apply all_evs_emit]. }
  destruct s; simpl in *.
  - unfold V1.marci2isis_step. apply all_evs_bind; [by apply all_evs_V1_run_command | intros _].
    apply all_evs_bind; [apply all_evs_exists | intros e].
    apply all_evs_if; [done | apply all_evs_ret].
  - unfold V1.spiceinit_step. by apply all_evs_V1_run_command.
  - unfold V1.marcical_step. apply all_evs_bind; [by apply all_evs_V1_run_command | intros _].
    apply all_evs_bind; [apply all_evs_exists | intros e].
    apply all_evs_if; [done | apply all_evs_ret].
  - unfold V1.explode_step. apply all_evs_bind; [by apply all_evs_V1_run_command | intros _].
    apply all_evs_if; [done | apply all_evs_ret].
  - unfold V1.cam2map_step. apply all_evs_bind; [by apply all_evs_V1_run_command | intros _].
    apply all_evs_bind; [apply all_evs_exists | intros e].
    apply all_evs_if; [done | apply all_evs_ret].
  - unfold V1.isis2std_step. by apply all_evs_V1_run_command.
Qed.

Lemma call_of_reads_from s f l e : f ∈ l -> call_of s f e -> reads_from l e.
Proof. intros Hf. destruct e; simpl; [done | | by intros -> | done | done]. intros [_ H]. eauto. Qed.

End StepCalls.

(** ** The stages *)

Lemma Forall_impl_evs {X A} (R1 R2 : Event -> Prop) (m : M X A) :
  (forall e, R1 e -> R2 e) -> all_evs R1 m -> all_evs R2 m.
Proof. intros H Hm w. eapply Forall_impl; [apply Hm | done]. Qed.

Section Stages.

Variable P : Platform.

(** A stage is the loop over the list that [sorted] has built from the
    files of the world the stage starts in. *)
Lemma stage_unfold s d m del (w : World (Ext P)) :
  V3.stage P s d m del w =
  for_each (PyPath.sorted_glob d (V3.pattern s) (files w)) (V3.step P s d m del) w.
Proof.
  unfold V3.stage, bind, sorted_glob. simpl. by destruct (for_each _ _ w).
Qed.

Lemma V1_stage_unfold s d m del (w : World (Ext P)) :
  V1.stage P s d m del w =
  for_each (PyPath.sorted_glob d (V3.pattern s) (files w)) (V1.step P s d m del) w.
Proof.
  unfold V1.stage, bind, sorted_glob. simpl. by destruct (for_each _ _ w).
Qed.


Lemma stage_first_runs_prefix s d m del (w : World (Ext P)) :
  first_runs (evs (V3.stage P s d m del w)) `prefix_of`
    (command s d m <$> PyPath.sorted_glob d (V3.pattern s) (files w)).
Proof. rewrite stage_unfold. apply for_each_first_runs_prefix. intros. apply step_first_runs. Qed.

Lemma stage_reads_from s d m del (w : World (Ext P)) :
  Forall (reads_from (PyPath.sorted_glob d (V3.pattern s) (files w)))
    (evs (V3.stage P s d m del w)).
Proof.
  rewrite stage_unfold. apply all_evs_for_each. intros f Hf.
  eapply Forall_impl_evs; [| apply step_call_of]. intros e. by apply call_of_reads_from.
Qed.

Lemma V1_stage_reads_from s d m del (w : World (Ext P)) :
  Forall (reads_from (PyPath.sorted_glob d (V3.pattern s) (files w)))
    (evs (V1.stage P s d m del w)).
Proof.
  rewrite V1_stage_unfold. apply all_evs_for_each. intros f Hf.
  eapply Forall_impl_evs; [| apply V1_step_call_of]. intros e. by apply call_of_reads_from.
Qed.


End Stages.

(** ** The whole pipeline *)

Lemma last_app_Some {A} (l1 l2 : list A) x : last l2 = Some x -> last (l1 ++ l2) = Some x.
Proof.
  intros H. destruct l2 as [|y l2]; [done |]. rewrite last_app. by rewrite H.
Qed.

Section Pipeline.

Variable P : Platform.



End Pipeline.

(** ** The command line and [main] *)

Section Main.

Variable P : Platform.

Lemma take_action_status o v st e :
  V3.take_action o v st = Raised e -> e = SystemExit 0 \/ e = SystemExit 2.
Proof.
  unfold V3.take_action. destruct o; simpl.
  - intros [= <-]. by left.
  - destruct (V3.st_seen_projection st); intros [= <-]. by right.
  - destruct (V3.get_values v); repeat case_match; intros [= <-]; by right.
  - destruct (V3.get_values v); repeat case_match; intros [= <-]; by right.
  - done.
Qed.

(** The parser ends the process with status 0 (help) or 2 (error) only. *)
Lemma consume_status n : forall (ts : list V3.Token) st extras e,
  (List.length ts <= n)%nat ->
  V3.consume ts st extras = Raised e -> e = SystemExit 0 \/ e = SystemExit 2.
Proof.
  induction n as [|n IH]; intros ts st extras e Hn.
  - destruct ts; [done | simpl in Hn; lia].
  - destruct ts as [|t ts]; [done |]. simpl in Hn.
    destruct t as [s | | o os [ea|] | s]; simpl.
    + apply IH. lia.
    + apply IH. lia.
    + destruct o.
      * repeat case_match; intros [= <-]; auto.
      * destruct (V3.take_action _ _ _) eqn:Ht; [apply IH; lia | intros [= <-]; eauto using take_action_status].
      * destruct (V3.take_action _ _ _) eqn:Ht; [apply IH; lia | intros [= <-]; eauto using take_action_status].
      * destruct (V3.take_action _ _ _) eqn:Ht; [apply IH; lia | intros [= <-]; eauto using take_action_status].
      * destruct (V3.take_action _ _ _) eqn:Ht; [apply IH; lia | intros [= <-]; eauto using take_action_status].
    + destruct o; [intros [= <-]; auto | | | |].
      all: destruct ts as [|[v | | |] ts]; try (intros [= <-]; auto; fail).
      all: destruct (V3.take_action _ _ _) eqn:Ht;
        [apply IH; simpl in Hn; lia | intros [= <-]; eauto using take_action_status].
    + apply IH. lia.
Qed.

(** [parse_args] reads the command line only: it touches no file, makes no
    call, and ends the process with status 0 or 2 when it does not return. *)
Lemma parse_args_pure argv :
  exists r, (forall w, V3.parse_args P argv w = mkOut r w []) /\
            (forall e, r = Raised e -> e = SystemExit 0 \/ e = SystemExit 2).
Proof.
  unfold V3.parse_args. destruct (V3.classify _) as [ts|].
  - destruct (V3.consume _ _ _) as [[st extras]|e] eqn:Hc.
    + destruct (negb _); [eexists; split; [done | intros ? [= <-]; auto] |].
      destruct extras; eexists; (split; [done | intros ? [=]; subst; auto]).
    + eexists. split; [done |]. intros ? [= <-]. by eapply consume_status.
  - eexists. split; [done |]. intros ? [= <-]. auto.
Qed.

Lemma parse_args_res argv (w w' : World (Ext P)) :
  res (V3.parse_args P argv w) = res (V3.parse_args P argv w').
Proof. destruct (parse_args_pure argv) as (r & Hr & _). by rewrite !Hr. Qed.

Local Opaque V3.process_images V3.parse_args.

(** When the parser ends the process, nothing else has happened but the
    creation of the log file. *)
Lemma main_parse_error argv (w : World (Ext P)) e :
  res (V3.parse_args P argv w) = Raised e ->
  V3.main P argv w = mkOut (Raised e) (wld (V3.setup_logging P w)) [].
Proof.
  destruct (parse_args_pure argv) as (r & Hr & _). rewrite Hr. simpl. intros ->.
  unfold V3.main, bind, V3.setup_logging. by rewrite Hr.
Qed.



End Main.

(** ** What a computation can raise *)

Section Raises.

Context {X : Type}.






End Raises.

Section RaisesCalls.

Variable P : Platform.






End RaisesCalls.

(** ** Loops, once more: any summary of the trace that respects
    concatenation *)

Section Collect.

Context {X B : Type}.
Variable g : list Event -> list B.
Hypothesis g_app : forall l1 l2, g (l1 ++ l2) = (g l1 ++ g l2)%list.
Hypothesis g_nil : g [] = [].


(** A loop over [l1 ++ l2] is the loop over [l1] followed by the loop over
    [l2]. *)
Lemma for_each_app (body : string -> M X unit) l1 l2 w :
  for_each (l1 ++ l2) body w = bind (for_each l1 body) (fun _ => for_each l2 body) w.
Proof.
  revert w. induction l1 as [|x l1 IH]; intros w; simpl.
  - unfold bind, ret. by destruct (for_each l2 body w).
  - unfold bind in *. destruct (body x w) as [[[]|e] w1 e1]; [| done].
    rewrite IH. destruct (for_each l1 body w1) as [[[]|e] w2 e2]; [| done].
    destruct (for_each l2 body w2) as [r w3 e3]. by rewrite app_assoc.
Qed.

End Collect.



Lemma from_inj (a b : string) : "from=" ++ a = "from=" ++ b -> a = b.
Proof. intros H. cbv in H. by injection H. Qed.

(** ** Stages that run to their end *)


Section StageCollect.

Variable P : Platform.
Context {B : Type}.
Variable g : list Event -> list B.
Hypothesis g_app : forall l1 l2, g (l1 ++ l2) = (g l1 ++ g l2)%list.
Hypothesis g_nil : g [] = [].


End StageCollect.

Lemma Demo_keeps_files : keeps_files Demo.platform.
Proof.
  intros c w. simpl. unfold Demo.demo_tool. destruct (Demo.fails c); simpl; set_solver.
Qed.

(** ** The first stage *)

Section FirstStage.

Variable P : Platform.




End FirstStage.


(** ** The SPICE stage *)

Section Spice.

Variable P : Platform.

Lemma spiceinit_step_ok cub (w : World (Ext P)) : res (V3.spiceinit_step P cub w) = Ok tt.
Proof.
  unfold V3.spiceinit_step, V3.try_spiceinit_with_web, V3.run_command, bind, try_except,
    subprocess_run_check, logging_info, logging_warning, logging_error, emit, ret.
  simpl. destruct (tool P _ w) as [rc w']; simpl. destruct (rc =? 0); simpl; [done |].
  destruct (tool P _ w') as [rc2 w2]; simpl. by destruct (rc2 =? 0).
Qed.

Lemma spiceinit_loop_ok l (w : World (Ext P)) : res (for_each l (V3.spiceinit_step P) w) = Ok tt.
Proof.
  revert w. induction l as [|x l IH]; intros w; simpl; [done |].
  destruct (bind_evs_ok (V3.spiceinit_step P x) (fun _ => for_each l (V3.spiceinit_step P)) w tt
              (spiceinit_step_ok x w)) as (_ & -> & _).
  apply IH.
Qed.

Lemma spiceinit_loop_reads_from l (w : World (Ext P)) :
  Forall (reads_from l) (evs (for_each l (V3.spiceinit_step P) w)).
Proof.
  apply all_evs_for_each. intros f Hf.
  eapply Forall_impl_evs; [| apply (step_call_of P V3.Spiceinit "" "" 0 f)].
  intros e. by apply call_of_reads_from.
Qed.

Lemma spiceinit_loop_first_runs l (w : World (Ext P)) :
  first_runs (evs (for_each l (V3.spiceinit_step P) w)) =
  (fun f => ["spiceinit"; "from=" ++ f]) <$> l.
Proof.
  apply (for_each_first_runs _ _ (fun _ _ => True)); [| done].
  intros x rest w0 _. split_and!; [apply spiceinit_step_ok | | done].
  apply (step_first_runs P V3.Spiceinit "" "" 0).
Qed.

(** C3. In the SPICE stage, let [cub] be a file of the sorted list of the
    stage, [l1] the files before it and [l2] those after it, and let the
    first [spiceinit] command for [cub] exit with a non-zero status.  Then the
    trace of the stage is: the trace of the loop over [l1]; the command for
    [cub], its error record, one WARNING record, one fallback command
    [spiceinit from=cub web=true] and, if that fails too, one more error
    record; then the trace of the loop over [l2].  The fallback command for
    [cub] is run nowhere else, every file of [l2] still gets its first
    command, the stage returns normally, and it calls [unlink] on nothing. *)
Theorem spiceinit_fallback (d m : string) (del : Z) (w : World (Ext P))
    (l1 l2 : list string) (cub : string) :
  PyPath.sorted_glob d "*.cub" (files w) = (l1 ++ cub :: l2)%list ->
  let before := for_each l1 (V3.spiceinit_step P) w in
  let c := ["spiceinit"; "from=" ++ cub] in
  let cweb := ["spiceinit"; "from=" ++ cub; "web=true"] in
  let rc := fst (tool P c (wld before)) in
  let w1 := snd (tool P c (wld before)) in
  let rc2 := fst (tool P cweb w1) in
  let after := for_each l2 (V3.spiceinit_step P) (snd (tool P cweb w1)) in
  rc <> 0 ->
  evs (V3.stage P V3.Spiceinit d m del w) =
    (evs before ++
     [Log INFO ("Running: " ++ PyStr.join " " c); Run c;
      Log ERROR (("spiceinit failed for " ++ cub ++ ", trying web...") ++ nl ++
                 "Command failed: " ++ CalledProcessError_str P c rc);
      Log WARNING ("Falling back to SPICE Web Services for " ++ cub);
      Log INFO ("Running: " ++ PyStr.join " " cweb); Run cweb] ++
     (if rc2 =? 0 then []
      else [Log ERROR (("SPICE Web Services also failed for " ++ cub) ++ nl ++
                       "Command failed: " ++ CalledProcessError_str P cweb rc2)]) ++
     evs after)%list /\
  (Run cweb ∉ evs before) /\
  (Run cweb ∉ evs after) /\
  first_runs (evs after) = (fun f => ["spiceinit"; "from=" ++ f]) <$> l2 /\
  res (V3.stage P V3.Spiceinit d m del w) = Ok tt /\
  (forall p, Unlink p ∉ evs (V3.stage P V3.Spiceinit d m del w)).
Proof.
  intros Hl before c cweb rc w1 rc2 after Hrc.
  assert (Hnd : NoDup (l1 ++ cub :: l2)) by (rewrite <- Hl; apply sorted_glob_NoDup).
  apply NoDup_app in Hnd as (_ & Hnot1 & [Hnot2 _]%NoDup_cons).
  assert (Hfresh : forall l w0, cub ∉ l -> Run cweb ∉ evs (for_each l (V3.spiceinit_step P) w0)).
  { intros l w0 Hcub Hin. pose proof (spiceinit_loop_reads_from l w0) as Hall.
    rewrite Forall_forall in Hall. destruct (Hall _ Hin) as (f & Hf & Heq).
    simpl in Heq. apply (inj Some) in Heq. apply from_inj in Heq as ->. done. }
  split_and!.
  - rewrite stage_unfold. simpl V3.pattern.
    change (V3.step P V3.Spiceinit d m del) with (V3.spiceinit_step P).
    rewrite Hl, for_each_app.
    destruct (bind_evs_ok (for_each l1 (V3.spiceinit_step P))
                (fun _ => for_each (cub :: l2) (V3.spiceinit_step P)) w tt
                (spiceinit_loop_ok l1 w)) as (-> & _ & _).
    fold before. f_equal. simpl.
    destruct (bind_evs_ok (V3.spiceinit_step P cub)
                (fun _ => for_each l2 (V3.spiceinit_step P)) (wld before) tt
                (spiceinit_step_ok cub (wld before))) as (-> & _ & _).
    unfold after, rc2, w1, rc in *. clear Hfresh.
    unfold V3.spiceinit_step at 1 3. unfold V3.try_spiceinit_with_web, V3.run_command, bind,
      try_except, subprocess_run_check, logging_info, logging_warning, logging_error,
      emit, ret.
    simpl. fold c. destruct (tool P c (wld before)) as [rc0 w0]; simpl in *.
    destruct (Z.eqb_spec rc0 0); [done |]. simpl. fold cweb.
    destruct (tool P cweb w0) as [rc3 w3]; simpl. by destruct (rc3 =? 0).
  - apply Hfresh. intros Hin. by apply (Hnot1 cub Hin); left.
  - by apply Hfresh.
  - apply spiceinit_loop_first_runs.
  - rewrite stage_unfold. apply spiceinit_loop_ok.
  - intros p Hin.
    pose proof (stage_all_evs P not_unlink V3.Spiceinit d m del) as Hall.
    assert (Hs : forall f, all_evs not_unlink (V3.step P V3.Spiceinit d m del f)).
    { intros f. simpl. unfold V3.spiceinit_step.
      apply all_evs_bind; [by apply all_evs_run_command | intros ok].
      apply all_evs_if; [by apply all_evs_try_spiceinit_with_web | apply all_evs_ret]. }
    specialize (Hall Hs w). rewrite Forall_forall in Hall. apply (Hall _ Hin).
Qed.

End Spice.

Lemma spiceinit_fallback_witness :
  let w := Demo.world ["/work/z.cub"; "/work/nokernel.cub"; "/work/a.cub"] in
  let o := V3.stage Demo.platform V3.Spiceinit "/work" "/work/m.map" 1 w in
  PyPath.sorted_glob "/work" "*.cub" (files w) =
    (["/work/a.cub"] ++ "/work/nokernel.cub" :: ["/work/z.cub"])%list /\
  res o = Ok tt /\
  runs (evs o) =
    [["spiceinit"; "from=/work/a.cub"];
     ["spiceinit"; "from=/work/nokernel.cub"];
     ["spiceinit"; "from=/work/nokernel.cub"; "web=true"];
     ["spiceinit"; "from=/work/z.cub"]].
Proof.
  intros w o.
  assert (Hl : PyPath.sorted_glob "/work" "*.cub" (files w) =
               (["/work/a.cub"] ++ "/work/nokernel.cub" :: ["/work/z.cub"])%list)
    by (vm_compute; reflexivity).
  split; [exact Hl |].
  pose proof (spiceinit_fallback Demo.platform "/work" "/work/m.map" 1 w
                ["/work/a.cub"] ["/work/z.cub"] "/work/nokernel.cub" Hl) as Hw.
  cbv zeta in Hw. destruct Hw as (Hevs & _ & _ & _ & Hres & _).
  - vm_compute. discriminate.
  - split; [exact Hres |]. unfold o. rewrite Hevs. vm_compute. reflexivity.
Defined.

(** ** Failing commands *)

Section Failures.

Variable P : Platform.


End Failures.



(** ** The deletion policy on the example platform *)

Lemma deletion_policy_witness :
  let w := Demo.world ["/work/a.IMG"] in
  Unlink "/work/a.IMG" ∈ evs (V3.step Demo.platform V3.Marci2isis "/work" "/work/m.map" 1 "/work/a.IMG" w).
Proof.
  intros w.
  pose proof (deletion_policy Demo.platform "/work" "/work/m.map" "/work/a.IMG" w) as Hw.
  cbv zeta in Hw. destruct Hw as ([_ Hw] & _). apply Hw.
  split; [vm_compute; reflexivity |]. apply (bool_decide_unpack _). vm_compute. exact I.
Defined.

(** What C1 says and the code does not.  The export stage keeps its input
    though the command succeeded and its output exists; the [explode] stage
    keeps its input, flag set, when the command failed; the [cam2map] stage
    removes its input when the command failed and an output of an earlier
    run exists. *)
Lemma deletion_rule_counterexample :
  let o1 := V3.step Demo.platform V3.Isis2std "/work" "/work/m.map" 1 "/work/a.lev2.cub"
              (Demo.world ["/work/a.lev2.cub"; "/work/a"]) in
  let o2 := V3.step Demo.platform V3.Explode "/work" "/work/m.map" 1 "/work/bad.lev1.cub"
              (Demo.world ["/work/bad.lev1.cub"]) in
  let o3 := V3.step Demo.platform V3.Cam2map "/work" "/work/m.map" 1 "/work/bad.band0001.cub"
              (Demo.world ["/work/bad.band0001.cub"; "/work/bad0001.lev2.cub"]) in
  (evs o1 = [Log INFO "Running: isis2std from=/work/a.lev2.cub to=/work/a";
             Run ["isis2std"; "from=/work/a.lev2.cub"; "to=/work/a"]] /\
   Demo.listing (wld o1) = ["/work/a"; "/work/a.lev2.cub"; "/work/a.png"]) /\
  (evs o2 = [Log INFO "Running: explode from=/work/bad.lev1.cub to=/work/bad";
             Run ["explode"; "from=/work/bad.lev1.cub"; "to=/work/bad"];
             Log ERROR (nl ++ "Command failed: Command '['explode', 'from=/work/bad.lev1.cub', " ++
                        "'to=/work/bad']' returned non-zero exit status 1.")] /\
   Demo.listing (wld o2) = ["/work/bad.lev1.cub"]) /\
  (evs o3 = [Log INFO ("Running: cam2map from=/work/bad.band0001.cub map=/work/m.map " ++
                       "to=/work/bad0001.lev2.cub");
             Run ["cam2map"; "from=/work/bad.band0001.cub"; "map=/work/m.map";
                  "to=/work/bad0001.lev2.cub"];
             Log ERROR ("cam2map failed for /work/bad.band0001.cub" ++ nl ++
                        "Command failed: Command '['cam2map', 'from=/work/bad.band0001.cub', " ++
                        "'map=/work/m.map', 'to=/work/bad0001.lev2.cub']' returned non-zero " ++
                        "exit status 1.");
             Unlink "/work/bad.band0001.cub"; Log INFO "Deleted: /work/bad.band0001.cub"] /\
   Demo.listing (wld o3) = ["/work/bad0001.lev2.cub"]).
Proof. vm_compute. by split_and!. Qed.

(** ** Exit statuses *)

Section ExitStatus.

Variable P : Platform.






End ExitStatus.




(** ** The polar preset *)

Section Presets.

Variable P : Platform.

(** C9. For the preset [polar], [create_projection_map] writes to the
    given path a text whose lines include [ProjectionName=PolarStereographic],
    [CenterLatitude=90.0], [TrueScaleLatitude=90.0], [MinimumLatitude=60.0]
    and [MaximumLatitude=90.0], each indented by two spaces, then logs the
    path and returns; and with [--projection polar] on the command line
    [main] writes that text to [polar.map] in the working directory before
    anything else. *)
Theorem polar_preset_text (output_path : string) (w : World (Ext P)) :
  let o := V3.create_projection_map P "polar" output_path w in
  exists text,
    evs o = [WriteText output_path text;
             Log INFO ("Projection map template written: " ++ output_path)] /\
    res o = Ok tt /\
    Forall (fun line => ("  " ++ line) ∈ PyStr.split "010"%char text /\
                        PyStr.contains line text = true)
      ["ProjectionName=PolarStereographic"; "CenterLatitude=90.0"; "TrueScaleLatitude=90.0";
       "MinimumLatitude=60.0"; "MaximumLatitude=90.0"] /\
    (forall prog, exists rest,
       evs (V3.main P [prog; "--projection"; "polar"] w) =
       WriteText (PyPath.joinpath (resolve P (cwd P)) "polar.map") text :: rest).
Proof.
  intros o. exists V3.polar_text. split_and!.
  - reflexivity.
  - reflexivity.
  - repeat constructor; try (vm_compute; reflexivity).
    all: apply (bool_decide_unpack _); vm_compute; exact I.
  - intros prog. unfold V3.main, bind, V3.setup_logging.
    change (V3.parse_args P [prog; "--projection"; "polar"])
      with (ret (X := Ext P)
              (V3.mkNamespace V3.Absent (V3.Value "polar") (V3.Value 0) (V3.Value (cwd P)))).
    simpl. unfold V3.create_projection_map.
    change (V3.PROJECTION_PRESETS !! "polar") with (Some V3.polar_text). simpl.
    destruct (V3.process_images P _ _ _ _) as [r1 w1 e1]. simpl. eauto.
Qed.

End Presets.

(** ** The inputs of a stage *)

Section Inputs.

Variable P : Platform.

(** C10. In the latest and in the first iteration, every command a stage
    runs reads, and every removal of the stage removes, a file of the list
    that [sorted(input_dir.glob(pattern))] built from the files existing
    when the stage started: a file that a tool creates during the stage is
    not handled by that stage, whatever the tools do.  In the latest
    iteration the first commands of the files are run in the order of that
    list, and the list has no repetition. *)
Theorem stage_inputs_are_fixed (s : V3.Stage) (d m : string) (del : Z) (w : World (Ext P)) :
  let inputs := PyPath.sorted_glob d (V3.pattern s) (files w) in
  Forall (reads_from inputs) (evs (V3.stage P s d m del w)) /\
  Forall (reads_from inputs) (evs (V1.stage P s d m del w)) /\
  (forall c, Run c ∈ evs (V3.stage P s d m del w) \/ Run c ∈ evs (V1.stage P s d m del w) ->
     exists f, c !! 1%nat = Some ("from=" ++ f) /\ f ∈ files w) /\
  first_runs (evs (V3.stage P s d m del w)) `prefix_of` (command s d m <$> inputs) /\
  NoDup inputs.
Proof.
  intros inputs.
  pose proof (stage_reads_from P s d m del w) as H3.
  pose proof (V1_stage_reads_from P s d m del w) as H1.
  split_and!; [done | done | | apply stage_first_runs_prefix | apply sorted_glob_NoDup].
  intros c Hc. rewrite Forall_forall in H3, H1.
  assert (Hr : reads_from inputs (Run c)) by (destruct Hc; auto).
  destruct Hr as (f & Hf & Hfrom). exists f. split; [done |].
  by apply sorted_glob_elem in Hf as [? _].
Qed.

End Inputs.

(** The calibration stage of the example: [a.lev1.cub], which the stage
    creates and which matches [*.cub], is not calibrated in the same
    stage. *)
Lemma stage_inputs_are_fixed_witness :
  let w := Demo.world ["/work/a.cub"] in
  let o := V3.stage Demo.platform V3.Marcical "/work" "/work/m.map" 0 w in
  Forall (reads_from ["/work/a.cub"]) (evs o) /\
  Demo.listing (wld o) = ["/work/a.cub"; "/work/a.lev1.cub"] /\
  PyPath.sorted_glob "/work" "*.cub" (files (wld o)) = ["/work/a.cub"; "/work/a.lev1.cub"].
Proof.
  intros w o.
  pose proof (stage_inputs_are_fixed Demo.platform V3.Marcical "/work" "/work/m.map" 0 w) as Hw.
  cbv zeta in Hw. destruct Hw as (Hw & _).
  split; [exact Hw |]. vm_compute. by split.
Defined.

(** ** Map templates *)

Lemma presets_lookup (projection : string) :
  (projection ∈ ["simplecyl"; "polar"; "eqc"] /\
   exists text, V3.PROJECTION_PRESETS !! projection = Some text /\
     text ∈ [V3.simplecyl_text; V3.polar_text; V3.eqc_text]) \/
  ((projection ∉ ["simplecyl"; "polar"; "eqc"]) /\ V3.PROJECTION_PRESETS !! projection = None).
Proof.
  unfold V3.PROJECTION_PRESETS.
  destruct (decide (projection = "simplecyl")) as [-> | H1].
  { left. split; [set_solver |]. exists V3.simplecyl_text. rewrite lookup_insert_eq. set_solver. }
  rewrite lookup_insert_ne by done.
  destruct (decide (projection = "polar")) as [-> | H2].
  { left. split; [set_solver |]. exists V3.polar_text. rewrite lookup_insert_eq. set_solver. }
  rewrite lookup_insert_ne by done.
  destruct (decide (projection = "eqc")) as [-> | H3].
  { left. split; [set_solver |]. exists V3.eqc_text. rewrite lookup_insert_eq. set_solver. }
  rewrite lookup_insert_ne by done.
  right. split; [set_solver | apply lookup_empty].
Qed.

Section Templates.

Variable P : Platform.



End Templates.

(** ** What [parse_args] returns *)

Section Namespace.

Variable P : Platform.

Lemma take_action_ok o v st st' :
  state_ok st -> V3.take_action o v st = Ok st' -> state_ok st'.
Proof.
  destruct st as [ns sm sp]. unfold state_ok, V3.take_action. simpl.
  intros (Hm & Hp & Hx & Hpr & Hd & Hdir).
  destruct o; simpl.
  - done.
  - destruct sp; [done |]. intros [= <-]. simpl. split_and!; try done.
    split; [intros _ | done]. by destruct (V3.get_values v).
  - destruct (V3.get_values v) as [s|].
    + case_bool_decide as Hs; [| done].
      destruct sm; [done |]. intros [= <-]. simpl. split_and!; try done.
      intros pr [= <-]. destruct (presets_lookup s) as [[? _] | [_ Hn]]; [done |].
      rewrite Hn in Hs. by destruct Hs.
    + destruct sm; [done |]. intros [= <-]. simpl. by split_and!.
  - destruct (V3.get_values v) as [s|].
    + destruct (PyStr.py_int s) as [z|]; [| done].
      destruct (Z.eqb_spec z 0) as [-> |]; simpl.
      { intros [= <-]. simpl. split_and!; try done. set_solver. }
      destruct (Z.eqb_spec z 1) as [-> |]; simpl; [| done].
      intros [= <-]. simpl. split_and!; try done. set_solver.
    + intros [= <-]. simpl. split_and!; try done. set_solver.
  - intros [= <-]. simpl. split_and!; try done.
    by destruct (V3.get_values v).
Qed.

Lemma consume_ok n : forall (ts : list V3.Token) st extras st' extras',
  (List.length ts <= n)%nat -> state_ok st ->
  V3.consume ts st extras = Ok (st', extras') -> state_ok st'.
Proof.
  induction n as [|n IH]; intros ts st extras st' extras' Hn Hst.
  - destruct ts; [by intros [= <- _] | simpl in Hn; lia].
  - destruct ts as [|t ts]; [by intros [= <- _] |]. simpl in Hn.
    destruct t as [s | | o os [ea|] | s]; simpl.
    + apply IH; [lia | done].
    + apply IH; [lia | done].
    + destruct o.
      * by repeat case_match.
      * destruct (V3.take_action _ _ _) eqn:Ht; [| done].
        apply IH; [lia | by eapply take_action_ok].
      * destruct (V3.take_action _ _ _) eqn:Ht; [| done].
        apply IH; [lia | by eapply take_action_ok].
      * destruct (V3.take_action _ _ _) eqn:Ht; [| done].
        apply IH; [lia | by eapply take_action_ok].
      * destruct (V3.take_action _ _ _) eqn:Ht; [| done].
        apply IH; [lia | by eapply take_action_ok].
    + destruct o; [done | | | |].
      all: destruct ts as [|[v | | |] ts]; try done.
      all: destruct (V3.take_action _ _ _) eqn:Ht; [| done].
      all: apply IH; [simpl in Hn; lia | by eapply take_action_ok].
    + apply IH; [lia | done].
Qed.

(** Whatever the command line, a namespace that [parse_args] returns has
    exactly one of [--map] and [--projection] set, a projection that is one
    of the three preset names (or the empty list of [--projection=--]), a
    delete flag that is 0 or 1 (or the empty list of [--delete=--]) and a
    directory; and [parse_args] has touched nothing. *)
Theorem parse_args_namespace (argv : list string) (w : World (Ext P)) (ns : V3.Namespace) :
  res (V3.parse_args P argv w) = Ok ns ->
  well_formed ns /\ wld (V3.parse_args P argv w) = w /\ evs (V3.parse_args P argv w) = [].
Proof.
  intros Hns. split.
  - revert Hns. unfold V3.parse_args. destruct (V3.classify _) as [ts|]; [| done].
    destruct (V3.consume _ _ _) as [[st extras]|e] eqn:Hc; [| done].
    assert (Hok : state_ok st).
    { eapply (consume_ok (List.length ts)); [done | | exact Hc].
      unfold state_ok; simpl. split_and!; try done. set_solver. }
    destruct st as [ns' sm sp]. unfold state_ok in Hok. simpl in *.
    destruct Hok as (Hm & Hp & Hx & Hpr & Hd & Hdir).
    destruct sm, sp; simpl; try done; destruct extras; try done; intros [= <-].
    + by destruct Hx.
    + unfold well_formed. split_and!; try done.
      split; [intros H; by apply Hm in H | intros H; by apply Hp in H].
    + unfold well_formed. split_and!; try done.
      split; [intros _; by apply Hp |]. intros _.
      destruct (V3.ns_map ns') eqn:E; [done | |]; exfalso.
      all: assert (false = true) by (by apply Hm); done.
  - destruct (parse_args_pure P argv) as (r & Hr & _). by rewrite Hr.
Qed.

End Namespace.

(** ** The glob patterns of the stages *)

Lemma fnmatch_go_nil s : PyPath.fnmatch_go [] s = true <-> s = [].
Proof. by destruct s. Qed.

Lemma fnmatch_go_star_eq pat s :
  PyPath.fnmatch_go ("*"%char :: pat) s =
  PyPath.fnmatch_go pat s ||
  match s with [] => false | _ :: s' => PyPath.fnmatch_go ("*"%char :: pat) s' end.
Proof. by destruct s. Qed.

(** A star stands for any run of characters. *)
Lemma fnmatch_go_star pat s :
  PyPath.fnmatch_go ("*"%char :: pat) s = true <->
  exists pre suf, s = (pre ++ suf)%list /\ PyPath.fnmatch_go pat suf = true.
Proof.
  induction s as [|d s IH]; rewrite fnmatch_go_star_eq.
  - rewrite orb_false_r. split; [intros H; by exists [], [] |].
    intros (pre & suf & Hs & H). symmetry in Hs. apply app_eq_nil in Hs as [-> ->]. done.
  - rewrite orb_true_iff, IH. split.
    + intros [H | (pre & suf & -> & H)]; [by exists [], (d :: s) | by exists (d :: pre), suf].
    + intros ([|x pre] & suf & Hs & H); simpl in Hs.
      * left. by rewrite Hs.
      * right. injection Hs as -> ->. eauto.
Qed.

(** Any other character stands for itself. *)
Lemma fnmatch_go_literal lit pat s :
  Forall (fun c => c <> "*"%char) lit ->
  (PyPath.fnmatch_go (lit ++ pat) s = true <->
   exists suf, s = (lit ++ suf)%list /\ PyPath.fnmatch_go pat suf = true).
Proof.
  intros Hlit. revert s. induction Hlit as [|c lit Hc Hlit IH]; intros s; simpl.
  - split; [by eauto | by intros (suf & -> & H)].
  - destruct (Ascii.eqb_spec c "*"%char) as [-> | _]; [done |].
    destruct s as [|d s]; [split; [done | by intros (? & ? & _)] |].
    rewrite andb_true_iff, IH. split.
    + intros [->%Ascii.eqb_eq (suf & -> & H)]. eauto.
    + intros (suf & [= -> ->] & H). split; [apply Ascii.eqb_refl | eauto].
Qed.

Lemma list_ascii_app (a b : string) :
  list_ascii_of_string (a ++ b) = (list_ascii_of_string a ++ list_ascii_of_string b)%list.
Proof.
  induction a as [|c a IH]; [reflexivity |].
  change (c :: list_ascii_of_string (a ++ b) = c :: (list_ascii_of_string a ++ list_ascii_of_string b)%list).
  by rewrite IH.
Qed.

Lemma string_of_list_app (a b : list ascii) :
  string_of_list_ascii (a ++ b) = string_of_list_ascii a ++ string_of_list_ascii b.
Proof.
  induction a as [|c a IH]; [reflexivity |].
  change (String c (string_of_list_ascii (a ++ b)) =
          String c (string_of_list_ascii a ++ string_of_list_ascii b)).
  by rewrite IH.
Qed.

(** The pattern [*lit]: the names that end in [lit]. *)
Lemma fnmatch_suffix (lit n : string) :
  Forall (fun c => c <> "*"%char) (list_ascii_of_string lit) ->
  (PyPath.fnmatch (String "*" lit) n = true <-> exists a, n = a ++ lit).
Proof.
  intros Hlit. unfold PyPath.fnmatch.
  change (list_ascii_of_string (String "*" lit)) with ("*"%char :: list_ascii_of_string lit).
  rewrite fnmatch_go_star. split.
  - intros (pre & suf & Hn & H).
    rewrite <- (app_nil_r (list_ascii_of_string lit)) in H.
    apply (fnmatch_go_literal _ [] _ Hlit) in H as (suf' & -> & ->%fnmatch_go_nil).
    rewrite app_nil_r in Hn. exists (string_of_list_ascii pre).
    rewrite <- (string_of_list_ascii_of_string n), Hn, string_of_list_app.
    by rewrite string_of_list_ascii_of_string.
  - intros (a & ->). exists (list_ascii_of_string a), (list_ascii_of_string lit).
    split; [apply list_ascii_app |].
    rewrite <- (app_nil_r (list_ascii_of_string lit)).
    apply (fnmatch_go_literal _ [] _ Hlit). exists []. by rewrite app_nil_r.
Qed.

(** The pattern [*lit1*lit2]. *)
Lemma fnmatch_infix_suffix (lit1 lit2 n : string) :
  Forall (fun c => c <> "*"%char) (list_ascii_of_string lit1) ->
  Forall (fun c => c <> "*"%char) (list_ascii_of_string lit2) ->
  (PyPath.fnmatch (String "*" (lit1 ++ String "*" lit2)) n = true <->
   exists a b, n = a ++ lit1 ++ b ++ lit2).
Proof.
  intros H1 H2. unfold PyPath.fnmatch.
  change (list_ascii_of_string (String "*" (lit1 ++ String "*" lit2)))
    with ("*"%char :: list_ascii_of_string (lit1 ++ String "*" lit2)).
  rewrite list_ascii_app.
  change (list_ascii_of_string (String "*" lit2)) with ("*"%char :: list_ascii_of_string lit2).
  rewrite fnmatch_go_star. split.
  - intros (pre & suf & Hn & H).
    apply (fnmatch_go_literal _ _ _ H1) in H as (suf1 & -> & H).
    apply fnmatch_go_star in H as (mid & suf2 & -> & H).
    rewrite <- (app_nil_r (list_ascii_of_string lit2)) in H.
    apply (fnmatch_go_literal _ [] _ H2) in H as (suf' & -> & ->%fnmatch_go_nil).
    rewrite app_nil_r in Hn.
    exists (string_of_list_ascii pre), (string_of_list_ascii mid).
    rewrite <- (string_of_list_ascii_of_string n), Hn, !string_of_list_app.
    by rewrite !string_of_list_ascii_of_string.
  - intros (a & b & ->). eexists (list_ascii_of_string a), _.
    split; [apply list_ascii_app |]. rewrite list_ascii_app.
    apply (fnmatch_go_literal _ _ _ H1). eexists. split; [reflexivity |].
    apply fnmatch_go_star. eexists (list_ascii_of_string b), (list_ascii_of_string lit2).
    split; [apply list_ascii_app |].
    rewrite <- (app_nil_r (list_ascii_of_string lit2)).
    apply (fnmatch_go_literal _ [] _ H2). exists []. by rewrite app_nil_r.
Qed.

Ltac no_star := repeat constructor; discriminate.

Lemma glob_IMG n : PyPath.fnmatch "*.IMG" n = true <-> exists a, n = a ++ ".IMG".
Proof. apply (fnmatch_suffix ".IMG"). no_star. Qed.

Lemma glob_cub n : PyPath.fnmatch "*.cub" n = true <-> exists a, n = a ++ ".cub".
Proof. apply (fnmatch_suffix ".cub"). no_star. Qed.

Lemma glob_lev1 n : PyPath.fnmatch "*.lev1.cub" n = true <-> exists a, n = a ++ ".lev1.cub".
Proof. apply (fnmatch_suffix ".lev1.cub"). no_star. Qed.

Lemma glob_band n :
  PyPath.fnmatch "*.band*.cub" n = true <-> exists a b, n = a ++ ".band" ++ b ++ ".cub".
Proof. apply (fnmatch_infix_suffix ".band" ".cub"); no_star. Qed.

Lemma glob_lev2 n : PyPath.fnmatch "*.lev2.cub" n = true <-> exists a, n = a ++ ".lev2.cub".
Proof. apply (fnmatch_suffix ".lev2.cub"). no_star. Qed.



(** What the glob of each stage matches: the [marci2isis] stage takes the
    names that end in [.IMG] (in this case of the letters), the [spiceinit]
    and [marcical] stages those that end in [.cub], the [explode] stage those
    that end in [.lev1.cub], the [cam2map] stage those that hold [.band] and
    end in [.cub] after it, the export stage those that end in
    [.lev2.cub]. *)
Theorem stage_patterns (n : string) :
  (PyPath.fnmatch (V3.pattern V3.Marci2isis) n = true <-> exists a, n = a ++ ".IMG") /\
  (PyPath.fnmatch (V3.pattern V3.Spiceinit) n = true <-> exists a, n = a ++ ".cub") /\
  (PyPath.fnmatch (V3.pattern V3.Marcical) n = true <-> exists a, n = a ++ ".cub") /\
  (PyPath.fnmatch (V3.pattern V3.Explode) n = true <-> exists a, n = a ++ ".lev1.cub") /\
  (PyPath.fnmatch (V3.pattern V3.Cam2map) n = true <->
     exists a b, n = a ++ ".band" ++ b ++ ".cub") /\
  (PyPath.fnmatch (V3.pattern V3.Isis2std) n = true <-> exists a, n = a ++ ".lev2.cub").
Proof.
  split_and!;
    [apply glob_IMG | apply glob_cub | apply glob_cub | apply glob_lev1 | apply glob_band
     | apply glob_lev2].
Qed.


(** ** A command line that the parser rejects *)

Section Rejected.

Variable P : Platform.

(** When [parse_args] ends the process (an error or the help), [main] has
    made no call at all: nothing is logged, run, written or removed; the one
    effect is the log file that [setup_logging] has opened, and the status
    is 0 or 2. *)
Theorem rejected_command_line_leaves_no_trace (argv : list string) (w : World (Ext P)) (e : Exn) :
  res (V3.parse_args P argv w) = Raised e ->
  res (V3.main P argv w) = Raised e /\
  evs (V3.main P argv w) = [] /\
  files (wld (V3.main P argv w)) = {[resolve P V3.LOG_FILE]} ∪ files w /\
  ext (wld (V3.main P argv w)) = ext w /\
  (exit_status (res (V3.main P argv w)) = 0 \/ exit_status (res (V3.main P argv w)) = 2).
Proof.
  intros He. rewrite (main_parse_error P argv w e He). simpl. split_and!; try done.
  destruct (parse_args_pure P argv) as (r & Hr & Hst). rewrite Hr in He. simpl in He.
  destruct (Hst e He) as [-> | ->]; auto.
Qed.

End Rejected.

Lemma rejected_command_line_leaves_no_trace_witness :
  let argv := ["marci_isis_processing_v3.py"; "--map"; "a.map"; "--projection"; "eqc"] in
  let w := Demo.world ["/work/a.map"; "/work/a.IMG"] in
  res (V3.parse_args Demo.platform argv w) = Raised (SystemExit 2) /\
  res (V3.main Demo.platform argv w) = Raised (SystemExit 2) /\
  evs (V3.main Demo.platform argv w) = [].
Proof.
  intros argv w.
  assert (H : res (V3.parse_args Demo.platform argv w) = Raised (SystemExit 2))
    by (vm_compute; reflexivity).
  destruct (rejected_command_line_leaves_no_trace Demo.platform argv w _ H) as (H1 & H2 & _).
  by split_and!.
Defined.

Lemma parse_args_namespace_witness :
  let argv := ["marci_isis_processing_v3.py"; "--proj=eqc"; "--delete"; " 0_1 "; "--dir"; "data"] in
  let ns := V3.mkNamespace V3.Absent (V3.Value "eqc") (V3.Value 1) (V3.Value "data") in
  res (V3.parse_args Demo.platform argv (Demo.world [])) = Ok ns /\ well_formed ns.
Proof.
  intros argv ns.
  assert (H : res (V3.parse_args Demo.platform argv (Demo.world [])) = Ok ns)
    by (vm_compute; reflexivity).
  split; [exact H |]. apply (parse_args_namespace Demo.platform argv (Demo.world []) ns H).
Defined.

(** ** Files disappear by [unlink] only *)

Section Vanish.

Context {X : Type}.

Lemma vanish_ret {A} (a : A) : vanish_by_unlink_only (ret (X := X) a).
Proof. intros w g Hg. by left. Qed.

Lemma vanish_raise {A} e : vanish_by_unlink_only (raise (X := X) (A := A) e).
Proof. intros w g Hg. by left. Qed.

Lemma vanish_emit e : vanish_by_unlink_only (emit (X := X) e).
Proof. intros w g Hg. by left. Qed.

Lemma vanish_bind {A B} (m : M X A) (f : A -> M X B) :
  vanish_by_unlink_only m -> (forall a, vanish_by_unlink_only (f a)) ->
  vanish_by_unlink_only (bind m f).
Proof.
  intros Hm Hf w g Hg. unfold bind. specialize (Hm w g Hg).
  destruct (m w) as [[a|e] w1 e1]; simpl in *; [| done].
  specialize (Hf a w1 g). destruct (f a w1) as [r w2 e2]; simpl in *.
  destruct Hm as [Hm | Hm]; [| right; apply elem_of_app; by left].
  destruct (Hf Hm) as [? | ?]; [by left | right; apply elem_of_app; by right].
Qed.

Lemma vanish_try_except {A} (m : M X A) h :
  vanish_by_unlink_only m -> (forall e k, h e = Some k -> vanish_by_unlink_only k) ->
  vanish_by_unlink_only (try_except m h).
Proof.
  intros Hm Hh w g Hg. unfold try_except. specialize (Hm w g Hg).
  destruct (m w) as [[a|e] w1 e1]; simpl in *; [done |].
  destruct (h e) as [k|] eqn:Eh; [| done].
  specialize (Hh e k Eh w1 g). destruct (k w1) as [r w2 e2]; simpl in *.
  destruct Hm as [Hm | Hm]; [| right; apply elem_of_app; by left].
  destruct (Hh Hm) as [? | ?]; [by left | right; apply elem_of_app; by right].
Qed.

Lemma vanish_if {A} (b : bool) (m1 m2 : M X A) :
  vanish_by_unlink_only m1 -> vanish_by_unlink_only m2 ->
  vanish_by_unlink_only (if b then m1 else m2).
Proof. by destruct b. Qed.

Lemma vanish_for_each (l : list string) (body : string -> M X unit) :
  (forall x, vanish_by_unlink_only (body x)) -> vanish_by_unlink_only (for_each l body).
Proof.
  intros H. induction l as [|x l IH]; simpl; [apply vanish_ret |].
  apply vanish_bind; [apply H | by intros _].
Qed.

End Vanish.

Section VanishCalls.

Variable P : Platform.
Hypothesis tools_keep : keeps_files P.

Lemma vanish_unlink p : vanish_by_unlink_only (path_unlink P p).
Proof.
  intros w g Hg. unfold path_unlink. case_bool_decide; simpl; [| by left].
  destruct (decide (g = p)) as [-> | Hne]; [right; set_solver | left; set_solver].
Qed.

Lemma vanish_run_command c msg : vanish_by_unlink_only (V3.run_command P c msg).
Proof.
  intros w g Hg. left. destruct (run_command_spec P c msg w) as (-> & _).
  by apply (tools_keep c w).
Qed.

Lemma vanish_step s d m del f : vanish_by_unlink_only (V3.step P s d m del f).
Proof.
  assert (Hdel : forall p msg, vanish_by_unlink_only (path_unlink P p ;; logging_info P msg)).
  { intros. apply vanish_bind; [apply vanish_unlink | intros _; apply vanish_emit]. }
  assert (Hex : forall p, vanish_by_unlink_only (path_exists P p)) by (intros p w g Hg; by left).
  destruct s; simpl.
  - unfold V3.marci2isis_step. apply vanish_bind; [apply vanish_run_command | intros ok].
    apply vanish_if; [| apply vanish_ret].
    apply vanish_bind; [apply Hex | intros e].
    apply vanish_if; [apply Hdel | apply vanish_ret].
  - unfold V3.spiceinit_step. apply vanish_bind; [apply vanish_run_command | intros ok].
    apply vanish_if; [| apply vanish_ret].
    unfold V3.try_spiceinit_with_web.
    apply vanish_bind; [apply vanish_emit | intros _].
    apply vanish_bind; [apply vanish_run_command | intros _; apply vanish_ret].
  - unfold V3.marcical_step. apply vanish_bind; [apply vanish_run_command | intros ok].
    apply vanish_if; [| apply vanish_ret].
    apply vanish_bind; [apply Hex | intros e].
    apply vanish_if; [apply Hdel | apply vanish_ret].
  - unfold V3.explode_step. apply vanish_bind; [apply vanish_run_command | intros ok].
    apply vanish_if; [| apply vanish_ret].
    apply vanish_if; [apply Hdel | apply vanish_ret].
  - unfold V3.cam2map_step. apply vanish_bind; [apply vanish_run_command | intros _].
    apply vanish_bind; [apply Hex | intros e].
    apply vanish_if; [apply Hdel | apply vanish_ret].
  - unfold V3.isis2std_step.
    apply vanish_bind; [apply vanish_run_command | intros _; apply vanish_ret].
Qed.

Lemma vanish_stage s d m del : vanish_by_unlink_only (V3.stage P s d m del).
Proof.
  unfold V3.stage. apply vanish_bind; [by intros w g Hg; left | intros l].
  apply vanish_for_each, vanish_step.
Qed.

Lemma vanish_process_images d m del : vanish_by_unlink_only (V3.process_images P d m del).
Proof.
  unfold V3.process_images.
  repeat (apply vanish_bind; [apply vanish_stage | intros _]).
  apply vanish_emit.
Qed.

Lemma vanish_create_projection_map pr p : vanish_by_unlink_only (V3.create_projection_map P pr p).
Proof.
  unfold V3.create_projection_map. destruct (V3.PROJECTION_PRESETS !! pr).
  - apply vanish_bind; [| intros _; apply vanish_emit].
    intros w g Hg. left. simpl. set_solver.
  - apply vanish_bind; [apply vanish_emit | intros _; apply vanish_raise].
Qed.

End VanishCalls.

Section Frame.

Variable P : Platform.

(** With tools that remove no file, a file that exists when the driver
    starts is gone at its end only if the driver has called [unlink] on it:
    this holds of [process_images] and of the whole of [main], whatever the
    command line, the flag and the exit statuses of the commands, and also
    when the run is cut short by an exception. *)
Theorem files_vanish_by_unlink_only (argv : list string) (d m : string) (del : Z) :
  keeps_files P ->
  vanish_by_unlink_only (V3.process_images P d m del) /\
  vanish_by_unlink_only (V3.main P argv).
Proof.
  intros Hk. split; [by apply vanish_process_images |].
  unfold V3.main.
  apply vanish_bind; [intros w g Hg; left; simpl; set_solver | intros _].
  apply vanish_bind.
  { intros w g Hg. left. destruct (parse_args_pure P argv) as (r & Hr & _). by rewrite Hr. }
  intros args. apply vanish_bind.
  { destruct (V3.ns_dir args); [apply vanish_raise | apply vanish_ret | apply vanish_raise]. }
  intros input_dir. apply vanish_bind.
  - assert (Hproj : vanish_by_unlink_only
              match V3.ns_projection args with
              | V3.Absent =>
                  V3.create_projection_map P "None" (PyPath.joinpath input_dir "None.map") ;;
                  ret (PyPath.joinpath input_dir "None.map")
              | V3.Value projection =>
                  V3.create_projection_map P projection
                    (PyPath.joinpath input_dir (projection ++ ".map")) ;;
                  ret (PyPath.joinpath input_dir (projection ++ ".map"))
              | V3.NoValues => raise (TypeError "unhashable type: 'list'")
              end).
    { destruct (V3.ns_projection args); [| | apply vanish_raise].
      all: apply vanish_bind; [by apply vanish_create_projection_map | intros _; apply vanish_ret]. }
    destruct (V3.ns_map args); [exact Hproj | | exact Hproj].
    apply vanish_bind; [by intros w g Hg; left | intros is_file].
    apply vanish_if; [| apply vanish_ret].
    apply vanish_bind; [apply vanish_emit | intros _; apply vanish_raise].
  - intros mt. repeat (apply vanish_bind; [apply vanish_emit | intros _]).
    by apply vanish_process_images.
Qed.


End Frame.

Lemma files_vanish_by_unlink_only_witness :
  let argv := ["marci_isis_processing_v3.py"; "--projection"; "eqc"; "--delete"; "1"] in
  let w := Demo.world ["/work/a.IMG"; "/work/notes.txt"] in
  keeps_files Demo.platform /\
  vanish_by_unlink_only (V3.main Demo.platform argv) /\
  Demo.listing (wld (V3.main Demo.platform argv w)) =
    ["/work/a0001.lev2.cub"; "/work/a0001.png"; "/work/a0002.lev2.cub"; "/work/a0002.png";
     "/work/eqc.map"; "/work/marci_isis_processing.log"; "/work/notes.txt"].
Proof.
  intros argv w. split; [apply Demo_keeps_files |]. split.
  - apply (files_vanish_by_unlink_only Demo.platform argv "/work" "/work/eqc.map" 1
             Demo_keeps_files).
  - vm_compute. reflexivity.
Defined.


(** ** The second and the latest iteration *)


Section SameEffects.

Context {X : Type}.





End SameEffects.

Section Iterations.

Variable P : Platform.



(** In the loop body of the latest iteration the fallback command is run
    exactly when the first command failed; in the first iteration every
    [spiceinit] command carries [web=true]. *)
Theorem web_fallback_iff_failure (cub : string) (w : World (Ext P)) :
  let c := ["spiceinit"; "from=" ++ cub] in
  let cweb := ["spiceinit"; "from=" ++ cub; "web=true"] in
  (Run cweb ∈ evs (V3.spiceinit_step P cub w) <-> fst (tool P c w) <> 0) /\
  (Run cweb ∈ evs (V2.spiceinit_step P cub w) <-> fst (tool P c w) <> 0) /\
  runs (evs (V1.spiceinit_step P cub w)) = [cweb] /\
  runs (evs (V3.spiceinit_step P cub w)) =
    (if fst (tool P c w) =? 0 then [c] else [c; cweb]).
Proof.
  intros c cweb.
  unfold V3.spiceinit_step, V2.spiceinit_step, V2.run_command, V2.try_spiceinit_with_web,
    V1.spiceinit_step, V1.run_command, V3.try_spiceinit_with_web, V3.run_command, bind,
    try_except, subprocess_run_check, logging_info, logging_warning, logging_error, print,
    emit, ret.
  simpl. fold c cweb.
  assert (Hne : Run cweb <> Run c) by (intros [=]).
  destruct (tool P c w) as [rc w1]; simpl.
  destruct (tool P cweb w) as [rcw ww]; simpl.
  destruct (Z.eqb_spec rc 0); simpl.
  - split_and!; try done; try (by destruct (rcw =? 0)).
    all: split; [| done]; intros Hin.
    all: repeat (apply elem_of_cons in Hin as [Hin | Hin]; try done).
    all: by apply elem_of_nil in Hin.
  - destruct (tool P cweb w1) as [rc2 w2]; simpl.
    split_and!.
    + split; [done | intros _]. destruct (rc2 =? 0); simpl; set_solver.
    + split; [done | intros _]. destruct (rc2 =? 0); simpl; set_solver.
    + by destruct (rcw =? 0).
    + by destruct (rc2 =? 0).
Qed.

(** Only the truth value of the delete flag matters: two flags that are
    both zero or both non-zero give the same run. *)
Theorem delete_flag_truth_value (d m : string) (del del' : Z) (w : World (Ext P)) :
  truthy del = truthy del' ->
  V3.process_images P d m del w = V3.process_images P d m del' w /\
  V1.process_images P d m del w = V1.process_images P d m del' w.
Proof.
  intros Ht.
  assert (H3 : forall s, V3.step P s d m del = V3.step P s d m del').
  { intros s. destruct s; simpl; try done.
    - unfold V3.marci2isis_step. by rewrite Ht.
    - unfold V3.marcical_step. by rewrite Ht.
    - unfold V3.explode_step. by rewrite Ht.
    - unfold V3.cam2map_step. by rewrite Ht. }
  assert (H1 : forall s, V1.step P s d m del = V1.step P s d m del').
  { intros s. destruct s; simpl; try done.
    - unfold V1.marci2isis_step. by rewrite Ht.
    - unfold V1.marcical_step. by rewrite Ht.
    - unfold V1.explode_step. by rewrite Ht.
    - unfold V1.cam2map_step. by rewrite Ht. }
  unfold V3.process_images, V1.process_images, V3.stage, V1.stage.
  by rewrite !H3, !H1.
Qed.

End Iterations.

Lemma delete_flag_truth_value_witness :
  let w := Demo.world ["/work/a.IMG"] in
  truthy 7 = truthy 1 /\
  V3.process_images Demo.platform "/work" "/work/m.map" 7 w =
  V3.process_images Demo.platform "/work" "/work/m.map" 1 w.
Proof.
  intros w. split; [reflexivity |].
  apply (delete_flag_truth_value Demo.platform "/work" "/work/m.map" 7 1 w eq_refl).
Defined.

(** ** The first iteration *)

Section StopsAtFailure.

Context {X : Type}.

Lemma stops_ret {A} (a : A) : stops_at_failure (ret (X := X) a).
Proof. by intros w c rc. Qed.

Lemma stops_emit e : stops_at_failure (emit (X := X) e).
Proof. by intros w c rc. Qed.

Lemma stops_bind {A B} (m : M X A) (f : A -> M X B) :
  stops_at_failure m -> (forall a, stops_at_failure (f a)) -> stops_at_failure (bind m f).
Proof.
  intros Hm Hf w c rc. unfold bind. specialize (Hm w c rc).
  destruct (m w) as [[a|e] w1 e1]; simpl in *; [| intros [= ->]; by apply Hm].
  specialize (Hf a w1 c rc). destruct (f a w1) as [r w2 e2]; simpl in *.
  intros Hr. destruct (Hf Hr) as [Hl Hrc]. split; [by apply last_app_Some | done].
Qed.

Lemma stops_if {A} (b : bool) (m1 m2 : M X A) :
  stops_at_failure m1 -> stops_at_failure m2 -> stops_at_failure (if b then m1 else m2).
Proof. by destruct b. Qed.

Lemma stops_for_each (l : list string) (body : string -> M X unit) :
  (forall x, stops_at_failure (body x)) -> stops_at_failure (for_each l body).
Proof.
  intros H. induction l as [|x l IH]; simpl; [apply stops_ret |].
  apply stops_bind; [apply H | by intros _].
Qed.

End StopsAtFailure.

Section FirstIteration.

Variable P : Platform.

Lemma stops_V1_run_command c : stops_at_failure (V1.run_command P c).
Proof.
  intros w c' rc. unfold V1.run_command, bind, print, emit, subprocess_run_check. simpl.
  destruct (tool P c w) as [rc0 w0]; simpl. destruct (Z.eqb_spec rc0 0); [done |].
  by intros [= <- <-].
Qed.

Lemma stops_unlink_print p msg : stops_at_failure (path_unlink P p ;; print P msg).
Proof.
  apply stops_bind; [| intros _; apply stops_emit].
  intros w c rc. unfold path_unlink. by case_bool_decide.
Qed.

Lemma stops_V1_step s d m del f : stops_at_failure (V1.step P s d m del f).
Proof.
  assert (Hex : forall p, stops_at_failure (path_exists P p)) by (by intros p w c rc).
  destruct s; simpl.
  - unfold V1.marci2isis_step. apply stops_bind; [apply stops_V1_run_command | intros _].
    apply stops_bind; [apply Hex | intros e].
    apply stops_if; [apply stops_unlink_print | apply stops_ret].
  - apply stops_V1_run_command.
  - unfold V1.marcical_step. apply stops_bind; [apply stops_V1_run_command | intros _].
    apply stops_bind; [apply Hex | intros e].
    apply stops_if; [apply stops_unlink_print | apply stops_ret].
  - unfold V1.explode_step. apply stops_bind; [apply stops_V1_run_command | intros _].
    apply stops_if; [apply stops_unlink_print | apply stops_ret].
  - unfold V1.cam2map_step. apply stops_bind; [apply stops_V1_run_command | intros _].
    apply stops_bind; [apply Hex | intros e].
    apply stops_if; [apply stops_unlink_print | apply stops_ret].
  - apply stops_V1_run_command.
Qed.

Lemma stops_V1_process_images d m del : stops_at_failure (V1.process_images P d m del).
Proof.
  unfold V1.process_images, V1.stage.
  repeat (apply stops_bind;
          [apply stops_bind; [by intros w c rc | intros l; apply stops_for_each, stops_V1_step]
          | intros _]).
  apply stops_emit.
Qed.

Lemma bind_raised_eq {A B} (m : M (Ext P) A) (f : A -> M (Ext P) B) w e :
  res (m w) = Raised e -> bind m f w = mkOut (Raised e) (wld (m w)) (evs (m w)).
Proof. unfold bind. destruct (m w) as [r w1 e1]; simpl. by intros ->. Qed.

Lemma V1_run_command_spec c (w : World (Ext P)) :
  V1.run_command P c w =
  mkOut (if fst (tool P c w) =? 0 then Ok tt
         else Raised (CalledProcessError c (fst (tool P c w))))
        (snd (tool P c w)) [Stdout ("Running: " ++ PyStr.join " " c); Run c].
Proof.
  unfold V1.run_command, bind, print, emit, subprocess_run_check.
  by destruct (tool P c w) as [rc w0].
Qed.

(** In the first iteration a failing command ends [process_images] at
    once: when the run raises the [CalledProcessError] of a command, that
    command had a non-zero exit status and is the last call of the trace, so
    no further file is handled and nothing is removed after it; and the
    loop body of every stage raises that exception, right after the command,
    whenever its command fails. *)
Theorem v1_stops_at_first_failure (d m : string) (del : Z) (w : World (Ext P)) :
  (forall c rc, res (V1.process_images P d m del w) = Raised (CalledProcessError c rc) ->
     last (evs (V1.process_images P d m del w)) = Some (Run c) /\ rc <> 0) /\
  (forall s f,
     let c := first_iteration_command s d m f in
     fst (tool P c w) <> 0 ->
     res (V1.step P s d m del f w) = Raised (CalledProcessError c (fst (tool P c w))) /\
     evs (V1.step P s d m del f w) = [Stdout ("Running: " ++ PyStr.join " " c); Run c] /\
     wld (V1.step P s d m del f w) = snd (tool P c w)).
Proof.
  split; [apply stops_V1_process_images |].
  intros s f c Hrc.
  assert (Hrun : res (V1.run_command P c w) = Raised (CalledProcessError c (fst (tool P c w))) /\
                 evs (V1.run_command P c w) = [Stdout ("Running: " ++ PyStr.join " " c); Run c] /\
                 wld (V1.run_command P c w) = snd (tool P c w)).
  { rewrite V1_run_command_spec. simpl. by destruct (Z.eqb_spec (fst (tool P c w)) 0). }
  destruct Hrun as (Hr & He & Hw). subst c.
  destruct s; try done.
  all: unfold first_iteration_command, command in *.
  all: unfold V1.step, V1.marci2isis_step, V1.marcical_step, V1.explode_step, V1.cam2map_step.
  all: cbv zeta.
  all: match goal with
       | |- context [bind (V1.run_command P ?c0) ?k ?w0] =>
           rewrite (bind_raised_eq (V1.run_command P c0) k w0 _ Hr)
       end.
  all: simpl; by rewrite He, Hw.
Qed.


End FirstIteration.

Lemma v1_stops_at_first_failure_witness :
  let w := Demo.world ["/work/bad.IMG"; "/work/good.IMG"] in
  let c := ["marci2isis"; "from=/work/bad.IMG"; "to=/work/bad.cub"] in
  res (V1.process_images Demo.platform "/work" "/work/m.map" 1 w) =
    Raised (CalledProcessError c 1) /\
  last (evs (V1.process_images Demo.platform "/work" "/work/m.map" 1 w)) = Some (Run c).
Proof.
  intros w c.
  assert (H : res (V1.process_images Demo.platform "/work" "/work/m.map" 1 w) =
              Raised (CalledProcessError c 1)) by (vm_compute; reflexivity).
  split; [exact H |].
  destruct (v1_stops_at_first_failure Demo.platform "/work" "/work/m.map" 1 w) as [Hw _].
  apply (Hw c 1 H).
Defined.


(** ** The second iteration's [main] *)

Section SecondMain.

Variable P : Platform.


End SecondMain.


(** ** Cleaning up *)


Section Cleanup.

Variable P : Platform.



End Cleanup.


(** ** The names of the outputs *)

Lemma mem_app c (a b : string) : PyStr.mem c (a ++ b) = PyStr.mem c a || PyStr.mem c b.
Proof.
  induction a as [|x a IH]; [reflexivity |].
  change (Ascii.eqb c x || PyStr.mem c (a ++ b) = Ascii.eqb c x || PyStr.mem c a || PyStr.mem c b).
  by rewrite IH, orb_assoc.
Qed.

Lemma length_app (a b : string) : String.length (a ++ b) = (String.length a + String.length b)%nat.
Proof.
  induction a as [|x a IH]; [reflexivity |].
  change (S (String.length (a ++ b)) = S (String.length a + String.length b)). by rewrite IH.
Qed.

Lemma substring_prefix (a b : string) : String.substring 0 (String.length a) (a ++ b) = a.
Proof.
  induction a as [|x a IH]; [by destruct b |].
  change (String x (String.substring 0 (String.length a) (a ++ b)) = String x a). by rewrite IH.
Qed.

(** The stem of [d/a.ext], for a non-empty [a] and an extension without dot,
    is [a], whatever dots [a] holds. *)
Lemma stem_joinpath d a ext :
  a <> "" -> PyStr.mem "/"%char a = false ->
  ext <> "" -> PyStr.mem "/"%char ext = false -> PyStr.mem "."%char ext = false ->
  PyPath.stem (PyPath.joinpath d (a ++ String "." ext)) = a.
Proof.
  intros Ha Hsa He Hse Hde. unfold PyPath.stem.
  assert (Hn : PyPath.name (PyPath.joinpath d (a ++ String "." ext)) = a ++ String "." ext).
  { apply (child_name_name d). apply joinpath_child_name.
    - by destruct a.
    - rewrite mem_app. simpl. by rewrite Hsa, Hse. }
  rewrite Hn. unfold PyStr.rfind. rewrite (rfind_go_last _ _ _ _ Hde). simpl.
  rewrite length_app. simpl.
  replace ((0 <? String.length a)%nat) with true
    by (symmetry; apply Nat.ltb_lt; destruct a; [done | simpl; lia]).
  replace ((String.length a <? Nat.pred (String.length a + S (String.length ext)))%nat) with true
    by (symmetry; apply Nat.ltb_lt; destruct ext; [done | simpl; lia]).
  simpl. apply substring_prefix.
Qed.

Section OutputNames.

Variable P : Platform.

(** The names the first and the third stage give to their outputs: for an
    entry [a.IMG] of the input directory the [marci2isis] command writes to
    [a.cub] of that directory, and for an entry [a.cub] the [marcical]
    command writes to [a.lev1.cub], for every non-empty [a], dots included:
    only the last suffix is replaced. *)
Theorem output_names (d m a : string) (del : Z) (w : World (Ext P)) :
  a <> "" -> PyStr.mem "/"%char a = false ->
  first_runs (evs (V3.step P V3.Marci2isis d m del (PyPath.joinpath d (a ++ ".IMG")) w)) =
    [["marci2isis"; "from=" ++ PyPath.joinpath d (a ++ ".IMG");
      "to=" ++ PyPath.joinpath d (a ++ ".cub")]] /\
  first_runs (evs (V3.step P V3.Marcical d m del (PyPath.joinpath d (a ++ ".cub")) w)) =
    [["marcical"; "from=" ++ PyPath.joinpath d (a ++ ".cub");
      "to=" ++ PyPath.joinpath d (a ++ ".lev1.cub")]] /\
  PyPath.fnmatch (V3.pattern V3.Marci2isis) (a ++ ".IMG") = true /\
  PyPath.fnmatch (V3.pattern V3.Marcical) (a ++ ".cub") = true.
Proof.
  intros Ha Hs. rewrite !step_first_runs. unfold command.
  rewrite (stem_joinpath d a "IMG"), (stem_joinpath d a "cub") by done.
  split_and!; [done | done | apply glob_IMG; eauto | apply glob_cub; eauto].
Qed.

End OutputNames.

Lemma output_names_witness :
  first_runs (evs (V3.step Demo.platform V3.Marci2isis "/work" "/work/m.map" 0
                     (PyPath.joinpath "/work" ("P01_001.v2" ++ ".IMG")) (Demo.world []))) =
  [["marci2isis"; "from=/work/P01_001.v2.IMG"; "to=/work/P01_001.v2.cub"]].
Proof.
  destruct (output_names Demo.platform "/work" "/work/m.map" "P01_001.v2" 0 (Demo.world []))
    as [Hw _]; [done | reflexivity |].
  rewrite Hw. vm_compute. reflexivity.
Defined.

